(** * AwardHub: tools/fill_icon_urls.py

    A shallow embedding of the icon resolver (slugify, find_image_for,
    fill_game_icon) and of the batch driver (main), with the properties of
    the design document that they satisfy.

    Python values are modelled as follows.
    - A [str] is a list of Unicode code points ([N]).
    - A value decoded by [json.loads] is a [json]; a [dict] is a finite map
      from [str] keys to [json] values.  Every object of a decoded document
      is fresh, so in-place mutation of a nested object is a functional
      update of the document at the place where the object is stored.
    - An exception is an [exn]; code that may raise returns a [result].
    - A [pathlib] path is a [Path] (POSIX flavour); the image tree is only
      probed for existence, through an oracle of type [Path → bool].
    - A file of the JSON directory is known by what [json.loads] makes of
      its text. *)

From stdpp Require Import gmap list strings.
From Stdlib Require Import NArith ZArith DecimalString.
From Stdlib Require Import Floats.SpecFloat.

(** ** Text *)

Abbreviation str := (list N).

(** The code points of an ASCII literal. *)
Definition u (s : string) : str :=
  map Ascii.N_of_ascii (String.list_ascii_of_string s).

(** [Py_UNICODE_ISSPACE]: the characters removed by [str.strip()]. *)
Definition is_space (c : N) : bool :=
  (((9 <=? c) && (c <=? 13)) || ((28 <=? c) && (c <=? 32))
   || (c =? 133) || (c =? 160) || (c =? 5760)
   || ((8192 <=? c) && (c <=? 8202))
   || (c =? 8232) || (c =? 8233) || (c =? 8239) || (c =? 8287)
   || (c =? 12288))%N.

Fixpoint lstrip (p : N → bool) (s : str) : str :=
  match s with
  | [] => []
  | c :: t => if p c then lstrip p t else s
  end.

Definition rstrip (p : N → bool) (s : str) : str :=
  rev (lstrip p (rev s)).

(** [s.strip(chars)], with [p] deciding membership in [chars]. *)
Definition strip (p : N → bool) (s : str) : str :=
  rstrip p (lstrip p s).

(** [s.strip()] *)
Definition str_strip (s : str) : str := strip is_space s.

Fixpoint is_prefix (p s : str) : bool :=
  match p, s with
  | [], _ => true
  | a :: p', b :: s' => (a =? b)%N && is_prefix p' s'
  | _ :: _, [] => false
  end.

(** [s.replace(old, new)] for a non-empty [old] (every call site passes a
    one-character literal): scan from the left, and where [old] occurs emit
    [new] and skip the rest of the occurrence. *)
Fixpoint replace_from (old new : str) (skip : nat) (s : str) : str :=
  match s with
  | [] => []
  | c :: t =>
      match skip with
      | S k => replace_from old new k t
      | O =>
          if is_prefix old s
          then new ++ replace_from old new (pred (length old)) t
          else c :: replace_from old new 0 t
      end
  end.

Definition str_replace (old new s : str) : str := replace_from old new 0 s.

(** [re.sub("[cls]+", repl, s)]: every maximal run of characters of the
    class becomes one copy of [repl]. *)
Fixpoint sub_runs (cls : N → bool) (repl : str) (in_run : bool) (s : str)
  : str :=
  match s with
  | [] => []
  | c :: t =>
      if cls c
      then (if in_run then [] else repl) ++ sub_runs cls repl true t
      else c :: sub_runs cls repl false t
  end.

Definition re_sub_plus (cls : N → bool) (repl s : str) : str :=
  sub_runs cls repl false s.

(** The class [[a-z0-9]]. *)
Definition is_lower_alnum (c : N) : bool :=
  (((97 <=? c) && (c <=? 122)) || ((48 <=? c) && (c <=? 57)))%N.

Definition underscore : N := 95%N.
Definition slash : N := 47%N.

Definition ascii_lower (c : N) : N :=
  if ((65 <=? c) && (c <=? 90))%N then (c + 32)%N else c.

(** [str(n)] for an [int]. *)
Definition py_str (n : Z) : str := u (NilZero.string_of_int (Z.to_int n)).

(** A truth test on a [str]: the empty string is false. *)
Definition nonempty {A} (l : list A) : bool :=
  match l with [] => false | _ => true end.

(** ** Exceptions *)

Inductive exn :=
| AttributeError | TypeError | ValueError | OverflowError
| JSONDecodeError | OSError | SystemExit.

Inductive result (A : Type) :=
| Ok (a : A)
| Raise (e : exn).

Arguments Ok {A} a.
Arguments Raise {A} e.

#[export] Instance result_ret : MRet result := @Ok.
#[export] Instance result_bind : MBind result := λ A B f m,
  match m with
  | Ok a => f a
  | Raise e => Raise e
  end.

(** ** JSON values *)

#[warnings="-register-all"] Inductive json :=
| JNull
| JBool (b : bool)
| JInt (n : Z)
| JFloat (f : spec_float)
| JStr (s : str)
| JArr (l : list json)
| JObj (d : gmap str json).

Abbreviation dict := (gmap str json).

(** [bool(x)] *)
Definition truthy (x : json) : bool :=
  match x with
  | JNull => false
  | JBool b => b
  | JInt n => negb (n =? 0)%Z
  | JFloat (S754_zero _) => false
  | JFloat _ => true
  | JStr s => nonempty s
  | JArr l => nonempty l
  | JObj d => negb (Nat.eqb (size d) 0)
  end.

(** [x or y] *)
Definition py_or (x y : json) : json := if truthy x then x else y.

(** [d.get(k)]: [None] when the key is absent. *)
Definition py_get (k : str) (d : dict) : json := default JNull (d !! k).

(** [bool] is a subclass of [int]. *)
Definition as_int (x : json) : option Z :=
  match x with
  | JBool b => Some (if b then 1 else 0)%Z
  | JInt n => Some n
  | _ => None
  end.

(** A float equals an [int] when it denotes exactly that integer. *)
Definition float_eq_int (f : spec_float) (n : Z) : bool :=
  match f with
  | S754_zero _ => (n =? 0)%Z
  | S754_finite s m e =>
      let a := if s then Z.neg m else Z.pos m in
      if (0 <=? e)%Z then (n =? a * 2 ^ e)%Z
      else ((a mod 2 ^ (- e) =? 0) && (n =? a / 2 ^ (- e)))%Z
  | _ => false
  end.

(** [x == y] on decoded values that are distinct objects. *)
Fixpoint py_eq (x y : json) : bool :=
  match x, y with
  | JNull, JNull => true
  | JStr a, JStr b => bool_decide (a = b)
  | JFloat f, JFloat g => SFeqb f g
  | JFloat f, (JInt _ | JBool _) => from_option (float_eq_int f) false (as_int y)
  | (JInt _ | JBool _), JFloat g => from_option (float_eq_int g) false (as_int x)
  | (JInt _ | JBool _), (JInt _ | JBool _) =>
      bool_decide (as_int x = as_int y)
  | JArr l1, JArr l2 =>
      (fix all2 l1 l2 :=
         match l1, l2 with
         | [], [] => true
         | a :: l1, b :: l2 => py_eq a b && all2 l1 l2
         | _, _ => false
         end) l1 l2
  | JObj d1, JObj d2 =>
      Nat.eqb (size d1) (size d2)
      && map_fold (λ k v acc,
           acc && match d2 !! k with
                  | Some w => py_eq v w
                  | None => false
                  end) true d1
  | _, _ => false
  end.

(** [x != y] *)
Definition py_ne (x y : json) : bool := negb (py_eq x y).

(** [int(f)] for a float: truncation toward zero. *)
Definition float_trunc (f : spec_float) : result Z :=
  match f with
  | S754_zero _ => Ok 0%Z
  | S754_finite s m e =>
      let v := if (0 <=? e)%Z then (Z.pos m * 2 ^ e)%Z
               else (Z.pos m / 2 ^ (- e))%Z in
      Ok (if s then (- v)%Z else v)
  | S754_nan => Raise ValueError
  | S754_infinity _ => Raise OverflowError
  end.

(** [x.get]: only a dict has the attribute. *)
Definition as_dict (x : json) : result dict :=
  match x with
  | JObj d => Ok d
  | _ => Raise AttributeError
  end.

(** [for a in x]: the elements a loop over [x] visits.  A str yields its
    characters, a dict its keys (in insertion order, which the finite map
    does not keep). *)
Definition py_iter (x : json) : result (list json) :=
  match x with
  | JArr l => Ok l
  | JStr s => Ok ((λ c, JStr [c]) <$> s)
  | JObj d => Ok ((λ kv, JStr kv.1) <$> map_to_list d)
  | _ => Raise TypeError
  end.

(** ** Paths ([pathlib.PurePosixPath]) *)

Record Path := mkPath { root : str; parts : list str }.

#[export] Instance Path_eq_dec : EqDecision Path.
Proof. solve_decision. Defined.

(** [s.split(sep)], with [cur] the field being read. *)
Fixpoint split_from (sep : N) (cur s : str) : list str :=
  match s with
  | [] => [cur]
  | c :: t =>
      if (c =? sep)%N then cur :: split_from sep [] t
      else split_from sep (cur ++ [c]) t
  end.

(** The root of a path string and what follows it; exactly two leading
    slashes are kept as a root of their own. *)
Definition splitroot (part : str) : str * str :=
  match part with
  | c :: _ =>
      if (c =? slash)%N then
        let stripped := lstrip (N.eqb slash) part in
        if Nat.eqb (length part - length stripped) 2
        then ([slash; slash], stripped)
        else ([slash], stripped)
      else ([], part)
  | [] => ([], part)
  end.

(** [Path(s)]: empty components and ["."] are dropped. *)
Definition parse_path (s : str) : Path :=
  let '(rt, rel) := splitroot s in
  {| root := rt;
     parts := filter (λ x, x ≠ [] ∧ x ≠ u ".") (split_from slash [] rel) |}.

(** [p / s]: a rooted right operand replaces the left one. *)
Definition joinpath (p : Path) (s : str) : Path :=
  let q := parse_path s in
  match root q with
  | [] => {| root := root p; parts := parts p ++ parts q |}
  | _ => q
  end.

(** [p.name]: the last component. *)
Definition name (p : Path) : str := default [] (last (parts p)).

(** ** Configuration *)

Definition IMG_DIR : Path := parse_path (u "img").
Definition PLACEHOLDER : str := u "img/*".
Definition EXTS : list str := [u ".jpg"; u ".jpeg"; u ".png"; u ".webp"].
Definition SUFFIXES : list str := [u ""; u "_2"; u "_3"; u "_4"; u "_5"].

Definition game_name : str := u "game_name".
Definition icon_url : str := u "icon_url".

(** A loop that returns from the function at the first hit. *)
Fixpoint first_hit {A B} (f : A → option B) (l : list A) : option B :=
  match l with
  | [] => None
  | a :: t =>
      match f a with
      | Some b => Some b
      | None => first_hit f t
      end
  end.

(** [find_image_for]: does not depend on the interpreter's tables. *)
Definition find_image_for (fs : Path → bool) (year : Z) (base_slug : str)
  : option str :=
  let year_dir := joinpath IMG_DIR (py_str year) in
  if negb (fs year_dir) then None
  else
    first_hit (λ suf,
      first_hit (λ ext,
        let p := joinpath year_dir (base_slug ++ suf ++ ext) in
        if fs p
        then Some (u "img/" ++ py_str year ++ u "/" ++ name p)
        else None) EXTS) SUFFIXES.

(** The output lines of the driver. *)
Inductive line :=
| LineOk (fname : str)
| LineSkip (fname : str)
| LineDone (changed total : nat).

(** The JSON directory and the console: each file of the directory with
    what [json.loads(fp.read_text())] yields for it. *)
Record world := mkWorld {
  disk : gmap str (result json);
  stdout : list line
}.

(** What the model takes from the interpreter: the Unicode tables behind
    [str.lower] and [int]. *)
Class Interpreter := {
  (** [str.lower()] maps each character in turn; an ASCII character maps to
      its ASCII lower case, any other goes through the Unicode database
      and, for the final-sigma rule, may look at its position in the whole
      string. *)
  lower_nonascii : str → nat → N → str;
  (** [int(s)] for a str, which follows the table of decimal digits and
      the limit on the number of digits. *)
  int_of_str : str → result Z
}.

Section Resolver.

Context {py : Interpreter}.

Definition lower_ucs4 (s : str) (i : nat) (c : N) : str :=
  if (c <? 128)%N then [ascii_lower c] else lower_nonascii s i c.

Definition str_lower (s : str) : str := concat (imap (lower_ucs4 s) s).

(** The slug before the final fallback. *)
Definition slug_core (text : option str) : str :=
  let s := str_lower (str_strip (default [] text)) in
  let s := str_replace (u "&") (u "and") s in
  let s := str_replace [8482%N] [] (str_replace [174%N] [] s) in
  let s := str_replace (u "'") [] (str_replace [8217%N] [] s) in
  let s := re_sub_plus (λ c, negb (is_lower_alnum c)) (u "_") s in
  strip (N.eqb underscore) (re_sub_plus (N.eqb underscore) (u "_") s).

Definition slugify (text : option str) : str :=
  match slug_core text with
  | [] => u "unknown"
  | s => s
  end.

(** [(game_obj.get("game_name") or "").strip()] *)
Definition stripped_name (game_obj : dict) : result str :=
  match py_or (py_get game_name game_obj) (JStr []) with
  | JStr s => Ok (str_strip s)
  | _ => Raise AttributeError
  end.

(** [fill_game_icon]: the game object as the call leaves it. *)
Definition fill_game_icon (fs : Path → bool) (year : Z) (game_obj : dict)
  : result dict :=
  nm ← stripped_name game_obj;
  if negb (nonempty nm) then Ok (<[icon_url := JStr PLACEHOLDER]> game_obj)
  else
    let base_slug := slugify (Some nm) in
    let img_path := find_image_for fs year base_slug in
    Ok (<[icon_url :=
            JStr (match img_path with
                  | Some p => if nonempty p then p else PLACEHOLDER
                  | None => PLACEHOLDER
                  end)]> game_obj).

(** [int(x)] *)
Definition py_int (x : json) : result Z :=
  match x with
  | JBool b => Ok (if b then 1 else 0)%Z
  | JInt n => Ok n
  | JFloat f => float_trunc f
  | JStr s => int_of_str s
  | JNull | JArr _ | JObj _ => Raise TypeError
  end.

(** The three lines shared by the winner and by each nominee: read
    [icon_url], fill, and compare. *)
Definition visit (fs : Path → bool) (year : Z) (o : dict)
  : result (dict * bool) :=
  let before := py_get icon_url o in
  o' ← fill_game_icon fs year o;
  Ok (o', py_ne (py_get icon_url o') before).

(** The loop over the nominees. *)
Fixpoint fill_nominees (fs : Path → bool) (year : Z) (noms : list json)
  : result (list json * bool) :=
  match noms with
  | [] => Ok ([], false)
  | nom :: rest =>
      '(nom', c) ← match nom with
                   | JObj o =>
                       '(o', c) ← visit fs year o; Ok (JObj o', c)
                   | _ => Ok (nom, false)
                   end;
      '(rest', c') ← fill_nominees fs year rest;
      Ok (nom' :: rest', c || c')
  end.

(** The body of the loop over the awards.  The list bound to [nominees]
    is the one stored in the award only when the stored value is true;
    otherwise it is the fresh [[]]. *)
Definition fill_award (fs : Path → bool) (year : Z) (a : json)
  : result (json * bool) :=
  award ← as_dict a;
  '(award, c1) ← match py_get (u "winner") award with
                 | JObj w =>
                     '(w', c) ← visit fs year w;
                     Ok (<[u "winner" := JObj w']> award, c)
                 | _ => Ok (award, false)
                 end;
  let stored := py_get (u "nominees") award in
  match py_or stored (JArr []) with
  | JArr noms =>
      '(noms', c2) ← fill_nominees fs year noms;
      Ok (JObj (if truthy stored
                then <[u "nominees" := JArr noms']> award
                else award), c1 || c2)
  | _ => Ok (JObj award, c1)
  end.

(** The loop over the awards. *)
Fixpoint fill_awards (fs : Path → bool) (year : Z) (awards : list json)
  : result (list json * bool) :=
  match awards with
  | [] => Ok ([], false)
  | a :: rest =>
      '(a', c) ← fill_award fs year a;
      '(rest', c') ← fill_awards fs year rest;
      Ok (a' :: rest', c || c')
  end.

(** One iteration of the loop over the files, up to the decision to
    write: the document as mutated and the [changed] flag. *)
Definition fill_file (fs : Path → bool) (loaded : result json)
  : result (json * bool) :=
  data ← loaded;
  d ← as_dict data;
  year ← py_int (py_get (u "year") d);
  awards ← py_iter (default (JArr []) (d !! u "awards"));
  '(awards', changed) ← fill_awards fs year awards;
  Ok (match d !! u "awards" with
      | Some (JArr _) => JObj (<[u "awards" := JArr awards']> d)
      | _ => data
      end, changed).

(** The loop over the files; an exception leaves the loop and the
    function. *)
Fixpoint main_loop (fs : Path → bool) (files : list str)
  (changed_files : nat) (w : world) : world * result nat :=
  match files with
  | [] => (w, Ok changed_files)
  | fp :: rest =>
      match fill_file fs (default (Raise OSError) (disk w !! fp)) with
      | Raise e => (w, Raise e)
      | Ok (data, true) =>
          main_loop fs rest (S changed_files)
            {| disk := <[fp := Ok data]> (disk w);
               stdout := stdout w ++ [LineOk fp] |}
      | Ok (_, false) =>
          main_loop fs rest changed_files
            {| disk := disk w; stdout := stdout w ++ [LineSkip fp] |}
      end
  end.

(** [main]: [files] is [sorted(JSON_DIR.glob(JSON_GLOB))], or [None] when
    the directory does not exist. *)
Definition main (fs : Path → bool) (files : option (list str)) (w : world)
  : world * result unit :=
  match files with
  | None | Some [] => (w, Raise SystemExit)
  | Some files =>
      match main_loop fs files 0 w with
      | (w', Ok changed_files) =>
          ({| disk := disk w';
              stdout := stdout w' ++ [LineDone changed_files (length files)] |},
           Ok ())
      | (w', Raise e) => (w', Raise e)
      end
  end.

End Resolver.

(** ** Vocabulary of the design document *)

(** Characters a slug may contain: [[a-z0-9_]]. *)
Definition slug_char (c : N) : Prop :=
  is_lower_alnum c = true ∨ c = underscore.

(** Local form of "no two consecutive underscores". *)
Fixpoint single_us (s : str) : Prop :=
  match s with
  | [] => True
  | a :: t => (a = underscore → head t ≠ Some underscore) ∧ single_us t
  end.

(** The characters of a decimal numeral. *)
Definition is_digit_or_minus (c : N) : Prop :=
  (48 ≤ c ≤ 57)%N ∨ c = 45%N.

(** The candidate file names of a slug, suffix-major and extension-minor. *)
Definition candidates (base_slug : str) : list str :=
  suf ← SUFFIXES; ext ← EXTS; [base_slug ++ suf ++ ext].

(** The year-scoped directory [img/<year>] and a file in it. *)
Definition year_dir (year : Z) : Path := mkPath [] [u "img"; py_str year].

Definition candidate_path (year : Z) (fname : str) : Path :=
  mkPath [] [u "img"; py_str year; fname].

(** The web-relative path [img/<year>/<filename>]. *)
Definition web_path (year : Z) (fname : str) : str :=
  u "img/" ++ py_str year ++ u "/" ++ fname.




(** The dicts among some values. *)
Definition dicts (l : list json) : list dict :=
  omap (λ x, match x with JObj o => Some o | _ => None end) l.

(** The game objects the driver visits in an award, in the order of the
    visit: the winner when it is a dict, then each nominee that is one. *)
Definition visited_award (a : json) : list dict :=
  match a with
  | JObj award =>
      dicts [py_get (u "winner") award]
      ++ match py_get (u "nominees") award with
         | JArr noms => dicts noms
         | _ => []
         end
  | _ => []
  end.

(** The game objects the driver visits in a document. *)
Definition visited (data : json) : list dict :=
  match data with
  | JObj d =>
      match d !! u "awards" with
      | Some (JArr awards) => awards ≫= visited_award
      | _ => []
      end
  | _ => []
  end.

(** Some game object has another [icon_url] after than before. *)
Definition some_icon_changed (before after : list dict) : Prop :=
  Exists (λ p, p.2 !! icon_url ≠ p.1 !! icon_url) (zip before after).


(** ** The body of the loop over the awards, in two steps

    [fill_award] is the first step followed by the second
    ([fill_award_steps]). *)

Section Steps.

Context {py : Interpreter}.

(** The lines on the winner. *)
Definition fill_winner (fs : Path → bool) (year : Z) (award : dict)
  : result (dict * bool) :=
  match py_get (u "winner") award with
  | JObj w =>
      '(w', c) ← visit fs year w; Ok (<[u "winner" := JObj w']> award, c)
  | _ => Ok (award, false)
  end.

(** The lines on the nominees. *)
Definition fill_award_nominees (fs : Path → bool) (year : Z) (award : dict)
  : result (dict * bool) :=
  let stored := py_get (u "nominees") award in
  match py_or stored (JArr []) with
  | JArr noms =>
      '(noms', c) ← fill_nominees fs year noms;
      Ok (if truthy stored
          then <[u "nominees" := JArr noms']> award
          else award, c)
  | _ => Ok (award, false)
  end.

End Steps.


(** ** Instances used to run the model *)

(** [int(s)] for a str of ASCII digits with an optional minus sign. *)
Fixpoint digits_val (acc : Z) (s : str) : result Z :=
  match s with
  | [] => Ok acc
  | c :: t =>
      if ((48 <=? c) && (c <=? 57))%N
      then digits_val (10 * acc + Z.of_N (c - 48)) t
      else Raise ValueError
  end.

Definition ascii_int_of_str (s : str) : result Z :=
  match str_strip s with
  | [] => Raise ValueError
  | c :: t =>
      if (c =? 45)%N
      then (if nonempty t then n ← digits_val 0 t; Ok (- n)%Z
            else Raise ValueError)
      else digits_val 0 (c :: t)
  end.

(** An interpreter whose tables stop at ASCII. *)
Definition ascii_only : Interpreter :=
  {| lower_nonascii := λ _ _ c, [c]; int_of_str := ascii_int_of_str |}.

(** A file system holding exactly the listed paths. *)
Definition fs_of (l : list Path) : Path → bool := λ p, bool_decide (p ∈ l).

(** The image tree of the example of the design document. *)
Definition demo_fs : Path → bool :=
  fs_of [year_dir 2023;
         candidate_path 2023 (u "red_dead_redemption_2.jpg");
         candidate_path 2023 (u "hades_2.png");
         candidate_path 2023 (u "hades.webp")].

Definition game (nm : string) : dict := {[ game_name := JStr (u nm) ]}.

Definition with_icon (icon : string) (o : dict) : dict :=
  <[icon_url := JStr (u icon)]> o.

(** A document for the year 2023 with one award, and what the driver
    makes of it on [demo_fs]. *)
Definition demo_award : dict :=
  <[u "winner" := JObj (game "Red Dead Redemption 2")]>
    {[ u "nominees" :=
         JArr [JObj (game "Hades"); JStr (u "n/a"); JObj (game "  ")] ]}.

Definition demo_dict : dict :=
  <[u "year" := JInt 2023]> {[ u "awards" := JArr [JObj demo_award] ]}.

Definition demo_award_filled : dict :=
  <[u "winner" :=
      JObj (with_icon "img/2023/red_dead_redemption_2.jpg"
              (game "Red Dead Redemption 2"))]>
    {[ u "nominees" :=
         JArr [JObj (with_icon "img/2023/hades.webp" (game "Hades"));
               JStr (u "n/a");
               JObj (with_icon "img/*" (game "  "))] ]}.

Definition demo_dict_filled : dict :=
  <[u "year" := JInt 2023]>
    {[ u "awards" := JArr [JObj demo_award_filled] ]}.

(** A JSON directory of two files, the second without a year. *)
Definition demo_world : world :=
  {| disk := <[u "steam_awards_2023.json" := Ok (JObj demo_dict)]>
               {[ u "steam_awards_draft.json" :=
                    Ok (JObj {[ u "awards" := JArr [] ]}) ]};
     stdout := [] |}.

(** An image tree with a subdirectory under the year directory. *)
Definition demo_nested_fs : Path → bool :=
  fs_of [year_dir 2023; mkPath [] [u "img"; u "2023"; u "a"; u "b.jpg"]].

(** [demo_fs] with one more file that is no candidate of any slug. *)
Definition demo_fs_more : Path → bool :=
  fs_of [year_dir 2023;
         candidate_path 2023 (u "red_dead_redemption_2.jpg");
         candidate_path 2023 (u "hades_2.png");
         candidate_path 2023 (u "hades.webp");
         candidate_path 2023 (u "readme.txt")].

(** [demo_world] once the file of 2023 is processed. *)
Definition demo_world_after : world :=
  {| disk := <[u "steam_awards_2023.json" := Ok (JObj demo_dict_filled)]>
               (disk demo_world);
     stdout := [LineOk (u "steam_awards_2023.json")] |}.

(** ** Running the model *)

Section Run.

#[local] Existing Instance ascii_only.

Example slugify_rdr2 :
  slugify (Some (u "  Red Dead Redemption 2 "))
  = u "red_dead_redemption_2".
Proof. vm_compute. reflexivity. Qed.

Example slugify_symbols :
  slugify (Some (u "Baldur's Gate 3 & __Friends__!"))
  = u "baldurs_gate_3_and_friends".
Proof. vm_compute. reflexivity. Qed.

Example slugify_fallback :
  slugify (Some (u " ?! ")) = u "unknown".
Proof. vm_compute. reflexivity. Qed.

Example candidates_order :
  candidates (u "x")
  = u <$> ["x.jpg"; "x.jpeg"; "x.png"; "x.webp";
           "x_2.jpg"; "x_2.jpeg"; "x_2.png"; "x_2.webp";
           "x_3.jpg"; "x_3.jpeg"; "x_3.png"; "x_3.webp";
           "x_4.jpg"; "x_4.jpeg"; "x_4.png"; "x_4.webp";
           "x_5.jpg"; "x_5.jpeg"; "x_5.png"; "x_5.webp"].
Proof. vm_compute. reflexivity. Qed.

Example find_rdr2 :
  find_image_for demo_fs 2023 (u "red_dead_redemption_2")
  = Some (u "img/2023/red_dead_redemption_2.jpg").
Proof. vm_compute. reflexivity. Qed.

Example find_prefers_suffix_order :
  find_image_for demo_fs 2023 (u "hades") = Some (u "img/2023/hades.webp").
Proof. vm_compute. reflexivity. Qed.

Example find_no_year_dir :
  find_image_for demo_fs 2024 (u "hades") = None.
Proof. vm_compute. reflexivity. Qed.

Example fill_rdr2 :
  fill_game_icon demo_fs 2023 (game "Red Dead Redemption 2")
  = Ok (<[icon_url := JStr (u "img/2023/red_dead_redemption_2.jpg")]>
          (game "Red Dead Redemption 2")).
Proof. vm_compute. reflexivity. Qed.

Example fill_unmatched :
  fill_game_icon demo_fs 2023 (game "Celeste")
  = Ok (<[icon_url := JStr (u "img/*")]> (game "Celeste")).
Proof. vm_compute. reflexivity. Qed.

End Run.

(** ** Properties of the text helpers *)

Lemma single_us_no_pair s :
  single_us s → ∀ l1 l2, s ≠ l1 ++ underscore :: underscore :: l2.
Proof.
  intros Hs l1. revert s Hs.
  induction l1 as [|a l1 IH]; intros s Hs l2 ->; simpl in Hs.
  - destruct Hs as [Hh _]. by apply Hh.
  - destruct Hs as [_ Ht]. by eapply IH.
Qed.

Lemma no_pair_app_l (s d : str) :
  (∀ l1 l2, s ++ d ≠ l1 ++ underscore :: underscore :: l2) →
  ∀ l1 l2, s ≠ l1 ++ underscore :: underscore :: l2.
Proof.
  intros H l1 l2 ->. apply (H l1 (l2 ++ d)).
  by rewrite <- app_assoc.
Qed.

Lemma no_pair_app_r (s d : str) :
  (∀ l1 l2, d ++ s ≠ l1 ++ underscore :: underscore :: l2) →
  ∀ l1 l2, s ≠ l1 ++ underscore :: underscore :: l2.
Proof.
  intros H l1 l2 ->. apply (H (d ++ l1) l2).
  by rewrite <- app_assoc.
Qed.

Section Runs.

Variable cls : N → bool.
Hypothesis cls_us : cls underscore = true.

Lemma sub_runs_in_run_head s :
  head (sub_runs cls [underscore] true s) ≠ Some underscore.
Proof using cls_us.
  induction s as [|c t IH]; simpl; [done|].
  destruct (cls c) eqn:Hc; simpl; [done|].
  intros [= ->]. congruence.
Qed.

Lemma sub_runs_single_us b s : single_us (sub_runs cls [underscore] b s).
Proof using cls_us.
  revert b. induction s as [|c t IH]; intros b; simpl; [done|].
  destruct (cls c) eqn:Hc.
  - destruct b; simpl; [apply IH|].
    split; [|apply IH]. intros _. apply sub_runs_in_run_head.
  - simpl. split; [|apply IH]. intros ->. congruence.
Qed.

Lemma sub_runs_Forall (P : N → Prop) b s :
  P underscore → (∀ c, c ∈ s → cls c = false → P c) →
  Forall P (sub_runs cls [underscore] b s).
Proof.
  intros Hus. revert b.
  induction s as [|c t IH]; intros b Hs; simpl; [constructor|].
  assert (Ht : ∀ c', c' ∈ t → cls c' = false → P c')
    by (intros c' Hin; apply Hs; by right).
  destruct (cls c) eqn:Hc.
  - destruct b; simpl; [by apply IH|]. constructor; [done|by apply IH].
  - constructor; [apply Hs; [by left|done]|by apply IH].
Qed.

End Runs.

Lemma lstrip_split p s : ∃ d, s = d ++ lstrip p s.
Proof.
  induction s as [|c t [d IH]]; simpl; [by exists []|].
  destruct (p c); [|by exists []].
  exists (c :: d). simpl. by f_equal.
Qed.

Lemma lstrip_head p s c t : lstrip p s = c :: t → p c = false.
Proof.
  induction s as [|a s IH]; simpl; [done|].
  destruct (p a) eqn:Ha; [done|]. by intros [= -> _].
Qed.

Lemma rstrip_split p s : ∃ d, s = rstrip p s ++ d.
Proof.
  unfold rstrip. destruct (lstrip_split p (rev s)) as [d Hd].
  exists (rev d). rewrite <- rev_app_distr, <- Hd. by rewrite rev_involutive.
Qed.

Lemma rstrip_last p s t c : rstrip p s = t ++ [c] → p c = false.
Proof.
  unfold rstrip. intros H.
  apply (f_equal (@rev N)) in H.
  rewrite rev_involutive, rev_app_distr in H. simpl in H.
  by eapply lstrip_head.
Qed.

Lemma strip_split p s : ∃ d1 d2, s = d1 ++ strip p s ++ d2.
Proof.
  unfold strip. destruct (lstrip_split p s) as [d1 H1].
  destruct (rstrip_split p (lstrip p s)) as [d2 H2].
  exists d1, d2. by rewrite <- H2.
Qed.

Lemma strip_head p s c t : strip p s = c :: t → p c = false.
Proof.
  unfold strip. intros H.
  destruct (rstrip_split p (lstrip p s)) as [d Hd].
  rewrite H in Hd. by eapply lstrip_head.
Qed.

Lemma strip_last p s t c : strip p s = t ++ [c] → p c = false.
Proof. apply rstrip_last. Qed.




(** ** The slug normalizer *)

Section Slug.

Context {py : Interpreter}.

Lemma slug_core_ok text :
  Forall slug_char (slug_core text)
  ∧ (∀ l1 l2, slug_core text ≠ l1 ++ underscore :: underscore :: l2)
  ∧ head (slug_core text) ≠ Some underscore
  ∧ last (slug_core text) ≠ Some underscore.
Proof.
  unfold slug_core, re_sub_plus.
  set (s4 := str_replace _ _ (str_replace _ _ _)).
  set (s5 := sub_runs (λ c, negb (is_lower_alnum c)) _ _ s4).
  set (s6 := sub_runs (N.eqb underscore) _ _ s5).
  assert (H5 : Forall slug_char s5).
  { apply sub_runs_Forall; [by right|].
    intros c _ Hc. left. by destruct (is_lower_alnum c). }
  assert (H6 : Forall slug_char s6).
  { apply sub_runs_Forall; [by right|].
    intros c Hin _. by eapply Forall_forall in H5. }
  assert (S6 : single_us s6) by by apply sub_runs_single_us.
  destruct (strip_split (N.eqb underscore) s6) as (d1 & d2 & Hs).
  set (core := strip (N.eqb underscore) s6) in *.
  split_and!.
  - rewrite Hs in H6. by apply Forall_app in H6 as [_ [? _]%Forall_app].
  - apply (no_pair_app_l _ d2), (no_pair_app_r _ d1).
    rewrite <- Hs. by apply single_us_no_pair.
  - destruct core as [|c t] eqn:E; [done|]. simpl. intros [= ->].
    by apply strip_head in E.
  - destruct (last core) as [c|] eqn:E; [|done]. intros [= ->].
    apply last_Some in E as [t E]. by apply strip_last in E.
Qed.

Lemma unknown_ok :
  Forall slug_char (u "unknown")
  ∧ (∀ l1 l2, u "unknown" ≠ l1 ++ underscore :: underscore :: l2)
  ∧ head (u "unknown") ≠ Some underscore
  ∧ last (u "unknown") ≠ Some underscore.
Proof.
  split_and!; [|apply single_us_no_pair|done|done].
  - repeat constructor; by left.
  - vm_compute. by repeat split.
Qed.

Lemma slugify_ok text :
  Forall slug_char (slugify text)
  ∧ (∀ l1 l2, slugify text ≠ l1 ++ underscore :: underscore :: l2)
  ∧ head (slugify text) ≠ Some underscore
  ∧ last (slugify text) ≠ Some underscore.
Proof.
  unfold slugify.
  destruct (slug_core text) eqn:E; [apply unknown_ok|].
  rewrite <- E. apply slug_core_ok.
Qed.

Lemma slugify_nonempty text : slugify text ≠ [].
Proof. unfold slugify. by destruct (slug_core text). Qed.


(** C1. Whatever the input, the slug is made of characters of
    [[a-z0-9_]], has no two consecutive underscores and no underscore at
    either end; it is the fallback token ["unknown"] when the
    normalization leaves nothing, as it does for an absent and for an
    empty input.  Names of letters, digits, spaces and ['&'] are a
    special case. *)
Theorem slugify_wellformed (text : option str) :
  Forall slug_char (slugify text)
  ∧ (∀ l1 l2, slugify text ≠ l1 ++ underscore :: underscore :: l2)
  ∧ (∀ t, slugify text ≠ underscore :: t)
  ∧ (∀ t, slugify text ≠ t ++ [underscore])
  ∧ slugify text
    = (if decide (slug_core text = []) then u "unknown" else slug_core text)
  ∧ slugify None = u "unknown"
  ∧ slugify (Some []) = u "unknown".
Proof.
  destruct (slugify_ok text) as (Hc & Hp & Hh & Hl).
  split_and!; try done.
  - intros t E. by rewrite E in Hh.
  - intros t E. rewrite E, last_snoc in Hl. done.
  - unfold slugify. by destruct (slug_core text).
Qed.

End Slug.


(** ** Paths and the icon locator *)

Lemma split_from_no_sep sep cur s :
  sep ∉ s → split_from sep cur s = [cur ++ s].
Proof.
  revert cur. induction s as [|c t IH]; intros cur Hs; simpl.
  - by rewrite app_nil_r.
  - apply not_elem_of_cons in Hs as [Hc Ht].
    destruct (N.eqb_spec c sep) as [->|_]; [done|].
    rewrite IH by done. by rewrite <- app_assoc.
Qed.

(** A single file name parses to a relative path of one component. *)
Lemma parse_path_simple s :
  slash ∉ s → s ≠ [] → s ≠ u "." → parse_path s = mkPath [] [s].
Proof.
  intros Hs Hn Hd. unfold parse_path, splitroot.
  destruct s as [|c t]; [done|].
  destruct (N.eqb_spec c slash) as [->|_].
  { exfalso. apply Hs. by left. }
  rewrite split_from_no_sep by done. simpl.
  rewrite filter_cons_True by done. done.
Qed.

Lemma joinpath_simple p s :
  slash ∉ s → s ≠ [] → s ≠ u "." →
  joinpath p s = mkPath (root p) (parts p ++ [s]).
Proof. intros. unfold joinpath. by rewrite parse_path_simple. Qed.

Lemma string_of_uint_digits d :
  Forall is_digit_or_minus (u (NilEmpty.string_of_uint d)).
Proof.
  induction d; simpl; [constructor|..];
    (constructor; [left; vm_compute; split; discriminate|exact IHd]).
Qed.

Lemma py_str_chars n : Forall is_digit_or_minus (py_str n) ∧ py_str n ≠ [].
Proof.
  unfold py_str, NilZero.string_of_int, NilZero.string_of_uint.
  assert (Hnil : ∀ d, d ≠ Decimal.Nil → u (NilEmpty.string_of_uint d) ≠ [])
    by (by intros []).
  assert (Hu : ∀ d,
    Forall is_digit_or_minus
      (u (match d with
          | Decimal.Nil => "0"%string
          | _ => NilEmpty.string_of_uint d
          end))
    ∧ u (match d with
         | Decimal.Nil => "0"%string
         | _ => NilEmpty.string_of_uint d
         end) ≠ []).
  { intros d. destruct d eqn:E; rewrite <- ?E;
      try (split; [apply string_of_uint_digits|apply Hnil; by subst]).
    split; [|done]. constructor; [|constructor].
    left. vm_compute. split; discriminate. }
  destruct (Z.to_int n) as [d|d]; [apply Hu|].
  split; [|done]. change (u (String ?a ?s)) with (Ascii.N_of_ascii a :: u s).
  constructor; [by right|apply Hu].
Qed.

Lemma py_str_simple n :
  (slash ∉ py_str n) ∧ py_str n ≠ [] ∧ py_str n ≠ u ".".
Proof.
  destruct (py_str_chars n) as [Hc Hn]. split_and!; [|done|].
  - intros Hin. eapply Forall_forall in Hc; [|done].
    destruct Hc as [[? ?]|?]; [|done]. unfold slash in *. lia.
  - intros E. rewrite E in Hc. apply Forall_cons in Hc as [[[? ?]|?] _];
      [|done]. vm_compute in H. done.
Qed.

Lemma year_dir_join year : joinpath IMG_DIR (py_str year) = year_dir year.
Proof.
  destruct (py_str_simple year) as (? & ? & ?).
  by rewrite joinpath_simple.
Qed.

(** In the year directory a slug without a slash, a suffix and an extension
    name one file. *)
Lemma candidate_join year base_slug suf ext :
  slash ∉ base_slug → suf ∈ SUFFIXES → ext ∈ EXTS →
  joinpath (year_dir year) (base_slug ++ suf ++ ext)
  = candidate_path year (base_slug ++ suf ++ ext)
  ∧ name (candidate_path year (base_slug ++ suf ++ ext))
    = base_slug ++ suf ++ ext.
Proof.
  intros Hb Hs He.
  assert (Hsuf : slash ∉ suf).
  { unfold SUFFIXES in Hs. set_unfold in Hs.
    destruct Hs as [->|[->|[->|[->|[->|[]]]]]]; vm_compute;
      set_unfold; intros H; repeat destruct H as [H|H]; done. }
  assert (Hext : (slash ∉ ext) ∧ 4 ≤ length ext).
  { unfold EXTS in He. set_unfold in He.
    destruct He as [->|[->|[->|[->|[]]]]]; (split; [|vm_compute; lia]);
      vm_compute; set_unfold; intros H; repeat destruct H as [H|H]; done. }
  destruct Hext as [Hext Hlen].
  assert (Hname : 4 ≤ length (base_slug ++ suf ++ ext))
    by (rewrite !length_app; lia).
  split; [|done].
  rewrite joinpath_simple; [done|..].
  - rewrite !elem_of_app. tauto.
  - intros E. rewrite E in Hname. simpl in Hname. lia.
  - intros E. rewrite E in Hname. vm_compute in Hname. lia.
Qed.

Lemma first_hit_bind {A B C} (g : B → option C) (k : A → list B) l :
  first_hit g (l ≫= k) = first_hit (λ a, first_hit g (k a)) l.
Proof.
  induction l as [|a l IH]; [done|]. simpl.
  rewrite <- IH. clear IH.
  induction (k a) as [|b t IHt]; [done|]. simpl.
  by destruct (g b).
Qed.

Lemma first_hit_ext {A B} (f g : A → option B) l :
  (∀ a, a ∈ l → f a = g a) → first_hit f l = first_hit g l.
Proof.
  induction l as [|a l IH]; intros Hfg; [done|]. simpl.
  rewrite Hfg by by left. destruct (g a); [done|].
  apply IH. intros. apply Hfg. by right.
Qed.



Lemma first_hit_some {A B} (f : A → option B) l b :
  first_hit f l = Some b → ∃ a, a ∈ l ∧ f a = Some b.
Proof.
  induction l as [|a l IH]; [done|]. simpl.
  destruct (f a) eqn:E.
  - intros [= ->]. exists a. split; [by left|done].
  - intros (a' & ? & ?)%IH. exists a'. split; [by right|done].
Qed.

(** The two nested loops of the locator as one pass over the candidates. *)
Lemma find_image_for_candidates fs year base_slug :
  slash ∉ base_slug →
  find_image_for fs year base_slug
  = if fs (year_dir year)
    then first_hit (λ fname, if fs (candidate_path year fname)
                             then Some (web_path year fname) else None)
           (candidates base_slug)
    else None.
Proof.
  intros Hb. unfold find_image_for. rewrite year_dir_join.
  destruct (fs (year_dir year)); [|done]. cbn [negb].
  unfold candidates. rewrite first_hit_bind.
  apply first_hit_ext. intros suf Hs.
  rewrite first_hit_bind. apply first_hit_ext. intros ext He. simpl.
  destruct (candidate_join year base_slug suf ext) as [-> ->]; try done.
  by destruct (fs _).
Qed.



(** ** The record filler *)


Lemma find_image_for_nonempty fs year base_slug p :
  find_image_for fs year base_slug = Some p → nonempty p = true.
Proof.
  unfold find_image_for. destruct (negb _); [done|].
  intros (suf & _ & (ext & _ & Hp)%first_hit_some)%first_hit_some.
  destruct (fs _); [|done]. by injection Hp as <-.
Qed.

Lemma py_get_insert_ne (k k' : str) (v : json) (o : dict) :
  k ≠ k' → py_get k' (<[k := v]> o) = py_get k' o.
Proof. intros. unfold py_get. by rewrite lookup_insert_ne. Qed.

Lemma py_get_insert (k : str) (v : json) (o : dict) : py_get k (<[k := v]> o) = v.
Proof. unfold py_get. by rewrite lookup_insert_eq. Qed.

Lemma py_eq_str a y : py_eq (JStr a) y = true ↔ y = JStr a.
Proof.
  destruct y; simpl; try (split; [done|by intros [=]]).
  rewrite bool_decide_eq_true. split; [by intros ->|by intros [= ->]].
Qed.

Section Filler.

Context {py : Interpreter}.

(** What the filler stores: the placeholder, or the path found for the
    slug of the stripped name. *)
Lemma fill_game_icon_insert fs year o o' :
  fill_game_icon fs year o = Ok o' →
  ∃ v, o' = <[icon_url := JStr v]> o
       ∧ (v = PLACEHOLDER
          ∨ ∃ nm, stripped_name o = Ok nm
                  ∧ find_image_for fs year (slugify (Some nm)) = Some v).
Proof.
  unfold fill_game_icon. destruct (stripped_name o) as [nm|e]; [|done].
  simpl. destruct (nonempty nm); simpl.
  - destruct (find_image_for _ _ _) as [p|] eqn:E.
    + rewrite (find_image_for_nonempty _ _ _ _ E).
      intros [= <-]. exists p. split; [done|]. right. by exists nm.
    + intros [= <-]. exists PLACEHOLDER. by split; [|left].
  - intros [= <-]. exists PLACEHOLDER. by split; [|left].
Qed.




Lemma stripped_name_insert_icon (v : json) (o : dict) :
  stripped_name (<[icon_url := v]> o) = stripped_name o.
Proof. unfold stripped_name. by rewrite py_get_insert_ne. Qed.



(** C6. On a fixed image tree, filling a game object a second time with
    the same year stores what the first time stored: two applications
    are one. *)
Theorem fill_game_icon_idempotent (fs : Path → bool) (year : Z) (o : dict) :
  fill_game_icon fs year o ≫= fill_game_icon fs year
  = fill_game_icon fs year o.
Proof.
  destruct (fill_game_icon fs year o) as [o'|e] eqn:E; [|done]. simpl.
  rewrite <- E. unfold fill_game_icon in *.
  destruct (stripped_name o) as [nm|e] eqn:En; [|done]. simpl in E.
  assert (∃ v, o' = <[icon_url := v]> o) as [v ->].
  { destruct (nonempty nm); simpl in E; injection E as <-; by eexists. }
  rewrite stripped_name_insert_icon, En. simpl.
  destruct (nonempty nm); simpl; by rewrite insert_insert_eq.
Qed.

(** C9. The filler touches the key [icon_url] and no other: every other
    key is bound after the call to what it was bound before, and the
    keys after the call are those before it together with [icon_url]. *)
Theorem fill_game_icon_frame (fs : Path → bool) (year : Z) (o o' : dict) :
  fill_game_icon fs year o = Ok o' →
  (∀ k, k ≠ icon_url → o' !! k = o !! k)
  ∧ dom o' = {[icon_url]} ∪ dom o.
Proof.
  intros (v & -> & _)%fill_game_icon_insert. split.
  - intros k Hk. by rewrite lookup_insert_ne.
  - by rewrite dom_insert_L.
Qed.

End Filler.


(** ** The batch driver: what a visit does *)

Lemma bind_Ok {A B} (m : result A) (f : A → result B) b :
  m ≫= f = Ok b → ∃ a, m = Ok a ∧ f a = Ok b.
Proof. destruct m as [a|e]; [|done]. intros. by exists a. Qed.

Lemma visited_award_obj (award : dict) :
  visited_award (JObj award)
  = dicts [py_get (u "winner") award]
    ++ match py_get (u "nominees") award with
       | JArr noms => dicts noms
       | _ => []
       end.
Proof. done. Qed.

Lemma visited_obj (d : dict) :
  visited (JObj d)
  = match d !! u "awards" with
    | Some (JArr awards) => awards ≫= visited_award
    | _ => []
    end.
Proof. done. Qed.

#[local] Arguments dicts : simpl never.
#[local] Arguments visited_award : simpl never.

Lemma dicts_cons_dict o l : dicts (JObj o :: l) = o :: dicts l.
Proof. done. Qed.

Lemma dicts_cons_other x l : (∀ o, x ≠ JObj o) → dicts (x :: l) = dicts l.
Proof. intros Hx. destruct x; try done. by destruct (Hx d). Qed.

Lemma dicts_app l1 l2 : dicts (l1 ++ l2) = dicts l1 ++ dicts l2.
Proof. apply omap_app. Qed.

Lemma some_icon_changed_nil : ¬ some_icon_changed [] [].
Proof. by intros ?%Exists_nil. Qed.

Lemma some_icon_changed_cons (o o' : dict) l l' :
  some_icon_changed (o :: l) (o' :: l')
  ↔ o' !! icon_url ≠ o !! icon_url ∨ some_icon_changed l l'.
Proof. unfold some_icon_changed. simpl. by rewrite Exists_cons. Qed.

Lemma some_icon_changed_app (l1 l1' l2 l2' : list dict) :
  length l1 = length l1' →
  some_icon_changed (l1 ++ l2) (l1' ++ l2')
  ↔ some_icon_changed l1 l1' ∨ some_icon_changed l2 l2'.
Proof.
  intros Hlen. unfold some_icon_changed.
  by rewrite zip_with_app, Exists_app.
Qed.

Lemma orb_changed (c1 c2 : bool) (P1 P2 : Prop) :
  (c1 = true ↔ P1) → (c2 = true ↔ P2) → (c1 || c2 = true ↔ P1 ∨ P2).
Proof. intros <- <-. destruct c1, c2; simpl; intuition congruence. Qed.

Section Driver.

Context {py : Interpreter}.

Lemma visit_spec (fs : Path → bool) (year : Z) (o o' : dict) c :
  visit fs year o = Ok (o', c) →
  fill_game_icon fs year o = Ok o'
  ∧ (c = true ↔ o' !! icon_url ≠ o !! icon_url).
Proof.
  unfold visit. intros (o1 & Hfill & [= -> <-])%bind_Ok.
  split; [done|].
  apply fill_game_icon_insert in Hfill as (v & -> & _).
  rewrite py_get_insert, lookup_insert_eq. unfold py_ne, py_get.
  rewrite negb_true_iff, <- not_true_iff_false, py_eq_str.
  destruct (o !! icon_url) as [x|]; simpl; [|done].
  split; intros Hx E; apply Hx; congruence.
Qed.

Lemma fill_nominees_visited (fs : Path → bool) (year : Z) noms noms' c :
  fill_nominees fs year noms = Ok (noms', c) →
  Forall2 (λ o o', fill_game_icon fs year o = Ok o')
    (dicts noms) (dicts noms')
  ∧ (c = true ↔ some_icon_changed (dicts noms) (dicts noms')).
Proof.
  revert noms' c. induction noms as [|nom rest IH]; intros noms' c; simpl.
  { intros [= <- <-]. split; [constructor|].
    split; [done|by intros ?%some_icon_changed_nil]. }
  intros ([nom' c0] & Hnom & ([rest' c'] & Hrest & [= <- <-])%bind_Ok)%bind_Ok.
  destruct (IH _ _ Hrest) as [IH1 IH2].
  destruct nom as [| | | | | |o];
    try (injection Hnom as <- <-; rewrite !dicts_cons_other by done;
         split; [done|]; by rewrite <- IH2).
  apply bind_Ok in Hnom as ([o' c1] & [Hfill Hc]%visit_spec & [= <- <-]).
  rewrite !dicts_cons_dict. split; [by constructor|].
  rewrite some_icon_changed_cons. by apply orb_changed.
Qed.

Lemma fill_award_visited (fs : Path → bool) (year : Z) a a' c :
  fill_award fs year a = Ok (a', c) →
  Forall2 (λ o o', fill_game_icon fs year o = Ok o')
    (visited_award a) (visited_award a')
  ∧ (c = true ↔ some_icon_changed (visited_award a) (visited_award a'))
  ∧ ∃ award', a' = JObj award'.
Proof.
  unfold fill_award.
  intros (award & Ha & ([award1 c1] & Hw & Hn)%bind_Ok)%bind_Ok.
  destruct a as [| | | | | |award0]; try done. injection Ha as ->.
  assert (Hwin :
    Forall2 (λ o o', fill_game_icon fs year o = Ok o')
      (dicts [py_get (u "winner") award]) (dicts [py_get (u "winner") award1])
    ∧ (c1 = true ↔ some_icon_changed (dicts [py_get (u "winner") award])
                      (dicts [py_get (u "winner") award1]))
    ∧ py_get (u "nominees") award1 = py_get (u "nominees") award).
  { destruct (py_get (u "winner") award) as [| | | | | |w] eqn:Ew;
      try (injection Hw as <- <-; rewrite Ew; split_and!; [done| |done];
           split; [done|by intros ?%some_icon_changed_nil]).
    apply bind_Ok in Hw as ([w' c0] & [Hfill Hc]%visit_spec & [= <- <-]).
    rewrite py_get_insert, py_get_insert_ne by done.
    split_and!; [by repeat constructor| |done].
    rewrite !dicts_cons_dict, some_icon_changed_cons.
    rewrite Hc. split; [by left|]. by intros [?|?%some_icon_changed_nil]. }
  destruct Hwin as (Hw1 & Hw2 & Hnom). simpl in Hn. rewrite Hnom in Hn.
  rewrite !visited_award_obj. unfold py_or in Hn.
  destruct (truthy (py_get (u "nominees") award)) eqn:Et.
  - destruct (py_get (u "nominees") award) as [| | | | |noms|] eqn:En;
      try (injection Hn as <- <-; rewrite visited_award_obj, Hnom, !app_nil_r;
           split_and!; [done|done|by eexists]).
    apply bind_Ok in Hn as ([noms' c2] & Hfn & [= <- <-]).
    apply fill_nominees_visited in Hfn as [Hn1 Hn2].
    rewrite visited_award_obj, py_get_insert, py_get_insert_ne by done.
    split_and!; [by apply Forall2_app| |by eexists].
    rewrite some_icon_changed_app by by eapply Forall2_length.
    by apply orb_changed.
  - simpl in Hn. injection Hn as <- <-.
    rewrite visited_award_obj, Hnom, orb_false_r.
    assert (Hnil : match py_get (u "nominees") award with
                   | JArr noms => dicts noms
                   | _ => []
                   end = []).
    { destruct (py_get (u "nominees") award) as [| | | | |[|]|]; done. }
    rewrite Hnil, !app_nil_r. split_and!; [done|done|by eexists].
Qed.

Lemma fill_awards_visited (fs : Path → bool) (year : Z) l l' c :
  fill_awards fs year l = Ok (l', c) →
  Forall2 (λ o o', fill_game_icon fs year o = Ok o')
    (l ≫= visited_award) (l' ≫= visited_award)
  ∧ (c = true
     ↔ some_icon_changed (l ≫= visited_award) (l' ≫= visited_award)).
Proof.
  revert l' c. induction l as [|a rest IH]; intros l' c; simpl.
  { intros [= <- <-]. split; [constructor|].
    split; [done|by intros ?%some_icon_changed_nil]. }
  intros ([a' c0] & Ha & ([rest' c'] & Hrest & [= <- <-])%bind_Ok)%bind_Ok.
  destruct (IH _ _ Hrest) as [IH1 IH2].
  apply fill_award_visited in Ha as (Ha1 & Ha2 & _).
  simpl. split; [by apply Forall2_app|].
  rewrite some_icon_changed_app by by eapply Forall2_length.
  by apply orb_changed.
Qed.

(** A loop over something that is not a list meets no dict, so it ends
    at once or raises. *)
Lemma fill_awards_strings (fs : Path → bool) (year : Z) (l : list json) l' c :
  Forall (λ a, ∃ s, a = JStr s) l →
  fill_awards fs year l = Ok (l', c) → l = [] ∧ c = false.
Proof.
  intros Hl. destruct Hl as [|a rest [s ->] _]; simpl; [by intros [= <- <-]|].
  done.
Qed.

Lemma fill_file_visited (fs : Path → bool) data data' changed :
  fill_file fs (Ok data) = Ok (data', changed) →
  ∃ d year,
    data = JObj d ∧ py_int (py_get (u "year") d) = Ok year
    ∧ Forall2 (λ o o', fill_game_icon fs year o = Ok o')
        (visited data) (visited data')
    ∧ (changed = true ↔ some_icon_changed (visited data) (visited data')).
Proof.
  unfold fill_file. simpl.
  intros (d & Hd & (year & Hy & (awards & Hit
    & ([awards' c] & Hf & [= <- <-])%bind_Ok)%bind_Ok)%bind_Ok)%bind_Ok.
  destruct data as [| | | | | |d0]; try done. injection Hd as ->.
  exists d, year. split; [done|]. split; [done|].
  assert (Hstr : Forall (λ a, ∃ s, a = JStr s) awards →
    Forall2 (λ o o', fill_game_icon fs year o = Ok o') [] []
    ∧ (c = true ↔ some_icon_changed [] [])).
  { intros Hl. destruct (fill_awards_strings _ _ _ _ _ Hl Hf) as [_ ->].
    split; [constructor|]. split; [done|by intros ?%some_icon_changed_nil]. }
  destruct (d !! u "awards") as [x|] eqn:Ed; simpl in Hit.
  - destruct x as [| | | | s|l|d1]; try done; injection Hit as <-;
      rewrite !visited_obj, ?lookup_insert_eq, Ed.
    + apply Hstr. apply Forall_fmap, Forall_true. intros c0. by eexists.
    + by apply fill_awards_visited.
    + apply Hstr. apply Forall_fmap, Forall_true. intros c0. by eexists.
  - rewrite !visited_obj, Ed. injection Hit as <-. injection Hf as <- <-.
    split; [constructor|]. split; [done|by intros ?%some_icon_changed_nil].
Qed.

End Driver.


(** ** The batch driver: documents of the documented shape are processed *)

Section Totality.

Context {py : Interpreter}.






End Totality.


(** ** The batch driver: the claims of the design document *)

Section Claims.

Context {py : Interpreter}.

#[local] Arguments fill_file : simpl never.


Lemma main_loop_disk_frame (fs : Path → bool) files fp n w :
  fp ∉ files → disk (main_loop fs files n w).1 !! fp = disk w !! fp.
Proof.
  revert n w. induction files as [|f rest IH]; intros n w Hfp; [done|].
  apply not_elem_of_cons in Hfp as [Hne Hrest]. simpl.
  destruct (fill_file fs _) as [[data [|]]|e]; [..|done];
    rewrite IH by done; simpl; [|done].
  by rewrite lookup_insert_ne.
Qed.


Lemma main_loop_app (fs : Path → bool) l1 l2 n w :
  main_loop fs (l1 ++ l2) n w
  = match main_loop fs l1 n w with
    | (w1, Ok n1) => main_loop fs l2 n1 w1
    | r => r
    end.
Proof.
  revert n w. induction l1 as [|f l1 IH]; intros n w; [done|]. simpl.
  destruct (fill_file fs _) as [[data [|]]|e]; [..|done]; apply IH.
Qed.

(** C7. When the document of a file has no [year], or a [year] that
    [int] rejects, the coercion raises and the run ends there with that
    exception: the world is the one the earlier files left, and neither
    this file nor the files after it are processed. *)
Theorem bad_year_aborts_run (fs : Path → bool) (pre : list str) (fp : str)
    (rest : list str) (w w1 : world) (n1 : nat) (d : dict) (e : exn) :
  main_loop fs pre 0 w = (w1, Ok n1) →
  disk w1 !! fp = Some (Ok (JObj d)) →
  py_int (py_get (u "year") d) = Raise e →
  main_loop fs (pre ++ fp :: rest) 0 w = (w1, Raise e)
  ∧ main fs (Some (pre ++ fp :: rest)) w = (w1, Raise e)
  ∧ (d !! u "year" = None → e = TypeError).
Proof.
  intros Hpre Hfp Hy.
  assert (Hloop : main_loop fs (pre ++ fp :: rest) 0 w = (w1, Raise e)).
  { rewrite main_loop_app, Hpre. simpl. rewrite Hfp. unfold fill_file.
    simpl. by rewrite Hy. }
  split_and!; [done| |].
  - unfold main. rewrite Hloop. by destruct pre.
  - intros Hnone. unfold py_get in Hy. rewrite Hnone in Hy.
    by injection Hy as <-.
Qed.

Lemma fill_nominees_app (fs : Path → bool) (year : Z) l1 l2 :
  fill_nominees fs year (l1 ++ l2)
  = '(l1', c1) ← fill_nominees fs year l1;
    '(l2', c2) ← fill_nominees fs year l2;
    Ok (l1' ++ l2', c1 || c2).
Proof.
  induction l1 as [|nom l1 IH]; simpl.
  { by destruct (fill_nominees fs year l2) as [[l2' c2]|e]. }
  destruct (match nom with JObj _ => _ | _ => _ end) as [[nom' c]|e];
    [|done].
  simpl. rewrite IH.
  destruct (fill_nominees fs year l1) as [[l1' c1]|e]; [|done]. simpl.
  destruct (fill_nominees fs year l2) as [[l2' c2]|e]; [|done]. simpl.
  by rewrite orb_assoc.
Qed.

(** C8. A nominee that is not a dict is passed over: it raises nothing,
    it stays as it is in the list, it does not set the changed flag, and
    the nominees before and after it are processed as if it were not
    there. *)
Theorem non_dict_nominee_skipped (fs : Path → bool) (year : Z) pre x post :
  (∀ o, x ≠ JObj o) →
  fill_nominees fs year (pre ++ x :: post)
  = '(pre', c1) ← fill_nominees fs year pre;
    '(post', c2) ← fill_nominees fs year post;
    Ok (pre' ++ x :: post', c1 || c2).
Proof.
  intros Hx. rewrite fill_nominees_app.
  destruct (fill_nominees fs year pre) as [[pre' c1]|e]; [|done]. simpl.
  destruct x as [| | | | | |o]; try by destruct (fill_nominees fs year post)
    as [[post' c2]|e].
  by destruct (Hx o).
Qed.

(** C10. A winner that is present and is not a dict is passed over: the
    award is processed as the same award without the field, the field
    is put back as it was, with no [icon_url] anywhere in it, and the
    changed flag is the one of the nominees alone. *)
Theorem non_dict_winner_skipped (fs : Path → bool) (year : Z)
    (award : dict) (w : json) :
  award !! u "winner" = Some w →
  (∀ o, w ≠ JObj o) →
  fill_award fs year (JObj award)
  = ('(a', c) ← fill_award fs year (JObj (delete (u "winner") award));
     award' ← as_dict a';
     Ok (JObj (<[u "winner" := w]> award'), c))
  ∧ (∀ a' c, fill_award fs year (JObj award) = Ok (a', c) →
             ∃ award', a' = JObj award' ∧ award' !! u "winner" = Some w).
Proof.
  intros Hw Hnd.
  assert (Hback : ∀ v : json,
    <[u "winner" := w]> (<[u "nominees" := v]> (delete (u "winner") award))
    = <[u "nominees" := v]> award).
  { intros v. rewrite insert_insert_ne by done.
    by rewrite insert_delete_eq, (insert_id award). }
  assert (Hback' : <[u "winner" := w]> (delete (u "winner") award) = award).
  { by rewrite insert_delete_eq, insert_id. }
  assert (Hgw : py_get (u "winner") award = w)
    by (unfold py_get; by rewrite Hw).
  assert (Hgd : py_get (u "winner") (delete (u "winner") award) = JNull)
    by (unfold py_get; by rewrite lookup_delete_eq).
  assert (Hgn : py_get (u "nominees") (delete (u "winner") award)
                = py_get (u "nominees") award)
    by (unfold py_get; by rewrite lookup_delete_ne).
  assert (Heq : fill_award fs year (JObj award)
    = ('(a', c) ← fill_award fs year (JObj (delete (u "winner") award));
       award' ← as_dict a';
       Ok (JObj (<[u "winner" := w]> award'), c))).
  { clear Hw. unfold fill_award. simpl. rewrite Hgd, Hgw. simpl.
    rewrite Hgn.
    assert (Htail :
      (let stored := py_get (u "nominees") award in
       match py_or stored (JArr []) with
       | JArr noms =>
           '(noms', c2) ← fill_nominees fs year noms;
           Ok (JObj (if truthy stored
                     then <[u "nominees" := JArr noms']> award
                     else award), false || c2)
       | _ => Ok (JObj award, false)
       end)
      = ('(a', c) ←
           (let stored := py_get (u "nominees") award in
            match py_or stored (JArr []) with
            | JArr noms =>
                '(noms', c2) ← fill_nominees fs year noms;
                Ok (JObj (if truthy stored
                          then <[u "nominees" := JArr noms']>
                                 (delete (u "winner") award)
                          else delete (u "winner") award), false || c2)
            | _ => Ok (JObj (delete (u "winner") award), false)
            end);
         award' ← as_dict a';
         Ok (JObj (<[u "winner" := w]> award'), c))).
    { simpl. unfold py_or.
      destruct (truthy (py_get (u "nominees") award)) eqn:Et.
      - destruct (py_get (u "nominees") award) as [| | | | |noms|];
          simpl; rewrite ?Hback'; try done.
        destruct (fill_nominees fs year noms) as [[noms' c2]|e]; [|done].
        simpl. by rewrite Hback.
      - simpl. by rewrite Hback'. }
    destruct w as [| | | | | |o]; try apply Htail. by destruct (Hnd o). }
  split; [done|]. intros a' c. rewrite Heq.
  intros ([a1 c1] & _ & (award1 & _ & [= <- _])%bind_Ok)%bind_Ok.
  eexists. split; [done|]. by rewrite lookup_insert_eq.
Qed.

End Claims.


(** ** The theorems at work on the example *)

Example fill_demo_file :
  fill_file (py := ascii_only) demo_fs (Ok (JObj demo_dict))
  = Ok (JObj demo_dict_filled, true).
Proof. vm_compute. reflexivity. Qed.

Example main_demo :
  main (py := ascii_only) demo_fs
    (Some [u "steam_awards_2023.json"]) demo_world
  = ({| disk := <[u "steam_awards_2023.json" := Ok (JObj demo_dict_filled)]>
                  (disk demo_world);
        stdout := [LineOk (u "steam_awards_2023.json"); LineDone 1 1] |},
     Ok ()).
Proof. vm_compute. reflexivity. Qed.





Lemma bad_year_aborts_run_witness :
  main_loop (py := ascii_only) demo_fs [u "steam_awards_2023.json"] 0
    demo_world
  = (mkWorld
       (<[u "steam_awards_2023.json" := Ok (JObj demo_dict_filled)]>
          (disk demo_world))
       [LineOk (u "steam_awards_2023.json")], Ok 1)
  ∧ py_int (py := ascii_only)
      (py_get (u "year") ({[ u "awards" := JArr [] ]} : dict))
    = Raise TypeError
  ∧ main (py := ascii_only) demo_fs
      (Some [u "steam_awards_2023.json"; u "steam_awards_draft.json";
             u "steam_awards_later.json"]) demo_world
    = (mkWorld
         (<[u "steam_awards_2023.json" := Ok (JObj demo_dict_filled)]>
            (disk demo_world))
         [LineOk (u "steam_awards_2023.json")], Raise TypeError).
Proof.
  assert (Hpre : main_loop (py := ascii_only) demo_fs
                   [u "steam_awards_2023.json"] 0 demo_world
    = (mkWorld
         (<[u "steam_awards_2023.json" := Ok (JObj demo_dict_filled)]>
            (disk demo_world))
         [LineOk (u "steam_awards_2023.json")], Ok 1))
    by (vm_compute; reflexivity).
  assert (Hy : py_int (py := ascii_only)
                 (py_get (u "year") ({[ u "awards" := JArr [] ]} : dict))
               = Raise TypeError) by (vm_compute; reflexivity).
  split_and!; [exact Hpre|exact Hy|].
  refine (proj1 (proj2 (bad_year_aborts_run (py := ascii_only) demo_fs
    [u "steam_awards_2023.json"] (u "steam_awards_draft.json")
    [u "steam_awards_later.json"] demo_world _ 1
    {[ u "awards" := JArr [] ]} TypeError Hpre _ Hy))).
  vm_compute. reflexivity.
Defined.

Lemma non_dict_nominee_skipped_witness :
  (∀ o, JStr (u "n/a") ≠ JObj o)
  ∧ fill_nominees (py := ascii_only) demo_fs 2023
      ([JObj (game "Hades")] ++ JStr (u "n/a") :: [JObj (game "  ")])
    = Ok ([JObj (with_icon "img/2023/hades.webp" (game "Hades"))]
          ++ JStr (u "n/a") :: [JObj (with_icon "img/*" (game "  "))], true).
Proof.
  assert (Hx : ∀ o, JStr (u "n/a") ≠ JObj o) by (intros o; discriminate).
  split; [exact Hx|].
  rewrite (non_dict_nominee_skipped (py := ascii_only) demo_fs 2023
             [JObj (game "Hades")] (JStr (u "n/a")) [JObj (game "  ")] Hx).
  vm_compute. reflexivity.
Defined.

Lemma fill_game_icon_frame_witness :
  fill_game_icon (py := ascii_only) demo_fs 2023 (game "Hades")
  = Ok (with_icon "img/2023/hades.webp" (game "Hades"))
  ∧ with_icon "img/2023/hades.webp" (game "Hades") !! game_name
    = game "Hades" !! game_name
  ∧ dom (with_icon "img/2023/hades.webp" (game "Hades"))
    = {[icon_url]} ∪ dom (game "Hades").
Proof.
  assert (Hf : fill_game_icon (py := ascii_only) demo_fs 2023 (game "Hades")
               = Ok (with_icon "img/2023/hades.webp" (game "Hades")))
    by (vm_compute; reflexivity).
  destruct (fill_game_icon_frame (py := ascii_only) demo_fs 2023
              (game "Hades") _ Hf) as [Hk Hdom].
  split_and!; [exact Hf| |exact Hdom].
  apply Hk. discriminate.
Defined.

Lemma non_dict_winner_skipped_witness :
  (<[u "winner" := JStr (u "TBA")]> demo_award : dict) !! u "winner"
  = Some (JStr (u "TBA"))
  ∧ (∀ o, JStr (u "TBA") ≠ JObj o)
  ∧ fill_award (py := ascii_only) demo_fs 2023
      (JObj (<[u "winner" := JStr (u "TBA")]> demo_award))
    = Ok (JObj (<[u "winner" := JStr (u "TBA")]> demo_award_filled), true).
Proof.
  assert (Hw : (<[u "winner" := JStr (u "TBA")]> demo_award : dict)
               !! u "winner" = Some (JStr (u "TBA")))
    by (vm_compute; reflexivity).
  assert (Hx : ∀ o, JStr (u "TBA") ≠ JObj o) by (intros o; discriminate).
  split_and!; [exact Hw|exact Hx|].
  rewrite (proj1 (non_dict_winner_skipped (py := ascii_only) demo_fs 2023
                    _ _ Hw Hx)).
  vm_compute. reflexivity.
Defined.

(** ** More on the slug normalizer *)

Lemma is_space_range c :
  is_space c = true → (c ≤ 32 ∨ 133 ≤ c)%N.
Proof.
  unfold is_space.
  rewrite !orb_true_iff, !andb_true_iff, !N.leb_le, !N.eqb_eq. lia.
Qed.

Lemma slug_char_range c :
  slug_char c → (48 ≤ c ≤ 57 ∨ c = 95 ∨ 97 ≤ c ≤ 122)%N.
Proof.
  unfold slug_char, is_lower_alnum, underscore.
  rewrite !orb_true_iff, !andb_true_iff, !N.leb_le. lia.
Qed.

Lemma slug_char_not_space c : slug_char c → is_space c = false.
Proof.
  intros H%slug_char_range. destruct (is_space c) eqn:E; [|done].
  apply is_space_range in E. lia.
Qed.

Lemma slug_char_class c :
  slug_char c → negb (is_lower_alnum c) = true ↔ c = underscore.
Proof.
  intros H. split.
  - destruct H as [E|E]; [by rewrite E|done].
  - intros E. by rewrite E.
Qed.

Lemma lstrip_id p s :
  (∀ c t, s = c :: t → p c = false) → lstrip p s = s.
Proof.
  destruct s as [|c t]; [done|]. intros H. simpl. by rewrite (H c t).
Qed.

Lemma strip_id p s :
  (∀ c t, s = c :: t → p c = false) →
  (∀ t c, s = t ++ [c] → p c = false) →
  strip p s = s.
Proof.
  intros Hh Hl. unfold strip, rstrip. rewrite (lstrip_id p s Hh).
  rewrite lstrip_id; [by rewrite rev_involutive|].
  intros c t E. apply (Hl (rev t) c).
  apply (f_equal (@rev N)) in E. rewrite rev_involutive in E.
  by rewrite E.
Qed.

Lemma strip_idemp p s : strip p (strip p s) = strip p s.
Proof.
  apply strip_id; [intros c t E; by eapply strip_head|].
  intros t c E. by eapply strip_last.
Qed.

Lemma replace_char_absent (a : N) (new s : str) :
  a ∉ s → str_replace [a] new s = s.
Proof.
  unfold str_replace. induction s as [|c t IH]; [done|].
  intros [Hc Ht]%not_elem_of_cons. simpl.
  destruct (N.eqb_spec a c) as [->|_]; [done|]. simpl. by rewrite IH.
Qed.

Lemma concat_imap_singletons (f : nat → N → str) (g : N → N) (s : str) :
  (∀ i c, c ∈ s → f i c = [g c]) → concat (imap f s) = map g s.
Proof.
  revert f. induction s as [|c t IH]; intros f Hf; [done|]. simpl.
  rewrite Hf by by left. simpl. f_equal. apply IH.
  intros i c' Hin. apply Hf. by right.
Qed.

Section RunsId.

Variable cls : N → bool.
Hypothesis cls_slug : ∀ c, slug_char c → cls c = true ↔ c = underscore.

(** On a string of slug characters without a run of underscores the
    substitution changes nothing. *)
Lemma sub_runs_id b s :
  Forall slug_char s → single_us s →
  (b = true → head s ≠ Some underscore) →
  sub_runs cls [underscore] b s = s.
Proof using cls_slug.
  revert b. induction s as [|c t IH]; intros b Hs Hu Hb; [done|].
  apply Forall_cons in Hs as [Hc Hs]. destruct Hu as [Hnext Hu]. simpl.
  destruct (cls c) eqn:E.
  - apply cls_slug in E as ->; [|done].
    destruct b; [by destruct Hb|]. simpl. f_equal.
    apply IH; [done|done|]. intros _. by apply Hnext.
  - f_equal. by apply IH.
Qed.

End RunsId.

Lemma no_pair_single_us s :
  (∀ l1 l2, s ≠ l1 ++ underscore :: underscore :: l2) → single_us s.
Proof.
  induction s as [|a t IH]; intros H; [done|]. split.
  - intros ->. destruct t as [|b t]; [done|]. simpl. intros [= ->].
    by apply (H [] t).
  - apply IH. intros l1 l2 ->. by apply (H (a :: l1) l2).
Qed.

Section SlugMore.

Context {py : Interpreter}.

Lemma str_lower_ascii s :
  Forall (λ c, (c < 128)%N) s → str_lower s = map ascii_lower s.
Proof.
  intros Hs. unfold str_lower. apply concat_imap_singletons.
  intros i c Hin. eapply Forall_forall in Hs; [|done].
  unfold lower_ucs4. by apply N.ltb_lt in Hs as ->.
Qed.

Lemma str_lower_slug s : Forall slug_char s → str_lower s = s.
Proof.
  intros Hs. rewrite str_lower_ascii.
  - rewrite <- (map_id s) at 2. apply map_ext_Forall.
    eapply Forall_impl; [done|]. intros c Hc%slug_char_range.
    unfold ascii_lower. destruct (andb _ _) eqn:E; [|done].
    apply andb_true_iff in E as [?%N.leb_le ?%N.leb_le]. lia.
  - eapply Forall_impl; [done|]. intros c Hc%slug_char_range. lia.
Qed.

Lemma slug_core_fixed (s : str) :
  Forall slug_char s →
  (∀ l1 l2, s ≠ l1 ++ underscore :: underscore :: l2) →
  head s ≠ Some underscore → last s ≠ Some underscore →
  slug_core (Some s) = s.
Proof.
  intros Hc Hp Hh Hl. unfold slug_core, re_sub_plus, str_strip.
  cbn [default from_option]. unfold id.
  assert (Hnot : ∀ a : N, ¬ slug_char a → a ∉ s).
  { intros a Ha Hin. eapply Forall_forall in Hc; [|done]. done. }
  assert (Hu : single_us s) by by apply no_pair_single_us.
  rewrite (strip_id is_space s).
  2:{ intros c t ->. apply slug_char_not_space.
      by apply Forall_cons in Hc as [? _]. }
  2:{ intros t c ->. apply slug_char_not_space.
      by apply Forall_app in Hc as [_ [? _]%Forall_cons]. }
  rewrite str_lower_slug by done.
  change (u "&") with [38%N]. change (u "'") with [39%N].
  rewrite (replace_char_absent 38 _ s), (replace_char_absent 174 _ s),
    (replace_char_absent 8482 _ s), (replace_char_absent 8217 _ s),
    (replace_char_absent 39 _ s) by (apply Hnot; intros [?|?]; done).
  change (u "_") with [underscore].
  rewrite (sub_runs_id (λ c, negb (is_lower_alnum c)) slug_char_class)
    by done.
  assert (Hcls : ∀ c, slug_char c → (underscore =? c)%N = true ↔ c = underscore).
  { intros c _. rewrite N.eqb_eq. split; congruence. }
  rewrite (sub_runs_id (N.eqb underscore) Hcls) by done.
  apply strip_id.
  - intros c t ->. destruct (N.eqb_spec underscore c) as [<-|]; [|done].
    by destruct Hh.
  - intros t c ->. destruct (N.eqb_spec underscore c) as [<-|]; [|done].
    destruct Hl. by rewrite last_snoc.
Qed.

(** X1. A name that already is a slug (non-empty, made of [[a-z0-9_]],
    without a run of underscores and without an underscore at either end)
    is its own slug. *)
Theorem slugify_fixed_point (s : str) :
  s ≠ [] →
  Forall slug_char s →
  (∀ l1 l2, s ≠ l1 ++ underscore :: underscore :: l2) →
  head s ≠ Some underscore → last s ≠ Some underscore →
  slugify (Some s) = s.
Proof.
  intros Hn Hc Hp Hh Hl. unfold slugify.
  rewrite slug_core_fixed by done. by destruct s.
Qed.

(** X2. Normalizing twice is normalizing once: the slug of a slug is that
    slug. *)
Theorem slugify_idempotent (text : option str) :
  slugify (Some (slugify text)) = slugify text.
Proof.
  destruct (slugify_ok text) as (Hc & Hp & Hh & Hl).
  unfold slugify at 1. rewrite slug_core_fixed by done.
  pose proof (slugify_nonempty text). by destruct (slugify text).
Qed.

(** X3. Blanks around a name do not count: the slug of the stripped name
    is the slug of the name, so the strip in the record filler does not
    change which icon a name gets. *)
Theorem slugify_strip (s : str) :
  slugify (Some (str_strip s)) = slugify (Some s).
Proof.
  unfold slugify, slug_core, str_strip. cbn [default from_option]. unfold id.
  by rewrite strip_idemp.
Qed.

End SlugMore.

Lemma lstrip_map (f : N → N) p s :
  (∀ c, p (f c) = p c) → lstrip p (map f s) = map f (lstrip p s).
Proof.
  intros Hf. induction s as [|c t IH]; [done|]. simpl.
  rewrite Hf. by destruct (p c).
Qed.

Lemma strip_map (f : N → N) p s :
  (∀ c, p (f c) = p c) → strip p (map f s) = map f (strip p s).
Proof.
  intros Hf. unfold strip, rstrip.
  by rewrite lstrip_map, <- map_rev, lstrip_map, map_rev.
Qed.

Lemma is_space_ascii_lower c : is_space (ascii_lower c) = is_space c.
Proof.
  unfold ascii_lower. destruct (andb _ _) eqn:E; [|done].
  apply andb_true_iff in E as [?%N.leb_le ?%N.leb_le].
  destruct (is_space (c + 32)) eqn:E1; [apply is_space_range in E1; lia|].
  destruct (is_space c) eqn:E2; [apply is_space_range in E2; lia|done].
Qed.

Section SlugCase.

Context {py : Interpreter}.

(** The slug of an ASCII name is computed from its lower-cased form. *)
Lemma slug_core_ascii (s : str) :
  Forall (λ c, (c < 128)%N) s →
  str_lower (str_strip s) = str_strip (map ascii_lower s).
Proof.
  intros Hs. unfold str_strip.
  rewrite strip_map by apply is_space_ascii_lower.
  apply str_lower_ascii.
  destruct (strip_split is_space s) as (d1 & d2 & E).
  rewrite E in Hs. by apply Forall_app in Hs as [_ [? _]%Forall_app].
Qed.

(** X4. Case does not count in ASCII names: two ASCII names that are
    equal once lower-cased have the same slug. *)
Theorem slugify_ascii_case (s1 s2 : str) :
  Forall (λ c, (c < 128)%N) s1 →
  Forall (λ c, (c < 128)%N) s2 →
  map ascii_lower s1 = map ascii_lower s2 →
  slugify (Some s1) = slugify (Some s2).
Proof.
  intros H1 H2 E. unfold slugify, slug_core.
  cbn [default from_option]. unfold id.
  by rewrite !slug_core_ascii, E by done.
Qed.

End SlugCase.

(** ** More on the icon locator *)



Lemma split_from_fields sep cur s x :
  sep ∉ cur → x ∈ split_from sep cur s → sep ∉ x.
Proof.
  revert cur. induction s as [|c t IH]; intros cur Hcur; simpl.
  - by intros ->%list_elem_of_singleton.
  - destruct (N.eqb_spec c sep) as [->|Hne].
    + intros [->|Hin]%elem_of_cons; [done|].
      apply (IH []); [apply not_elem_of_nil|done].
    + apply IH. rewrite elem_of_app, list_elem_of_singleton.
      intros [?|?]; [done|]. by apply Hne.
Qed.

Lemma parse_path_parts s x : x ∈ parts (parse_path s) → slash ∉ x.
Proof.
  unfold parse_path. destruct (splitroot s) as [rt rel]. simpl.
  intros [_ Hin]%list_elem_of_filter.
  eapply split_from_fields; [|done]. apply not_elem_of_nil.
Qed.

Lemma name_no_slash p :
  (∀ x, x ∈ parts p → slash ∉ x) → slash ∉ name p.
Proof.
  intros Hp. unfold name. destruct (last (parts p)) as [x|] eqn:E; simpl.
  - apply Hp. apply last_Some in E as [l ->].
    rewrite elem_of_app, list_elem_of_singleton. by right.
  - apply not_elem_of_nil.
Qed.

Lemma joinpath_parts p s x :
  x ∈ parts (joinpath p s) → x ∈ parts p ∨ slash ∉ x.
Proof.
  unfold joinpath. destruct (root (parse_path s)); simpl.
  - rewrite elem_of_app. intros [?|?%parse_path_parts]; [by left|by right].
  - intros ?%parse_path_parts. by right.
Qed.

(** X6. Whatever the base slug, a path the locator returns is
    [img/<year>/<name>] with a name free of ['/']: it names a file directly
    under the year directory and never reaches into a subdirectory. *)
Theorem find_image_for_shape (fs : Path → bool) (year : Z)
    (base_slug p : str) :
  find_image_for fs year base_slug = Some p →
  ∃ n, p = web_path year n ∧ slash ∉ n.
Proof.
  unfold find_image_for. rewrite year_dir_join.
  destruct (negb _); [done|].
  intros (suf & _ & (ext & _ & Hp)%first_hit_some)%first_hit_some.
  destruct (fs _); [|done]. injection Hp as <-.
  eexists. split; [done|]. apply name_no_slash.
  intros x [Hin|?]%joinpath_parts; [|done].
  destruct (py_str_simple year) as (Hy & _ & _).
  unfold year_dir in Hin. simpl in Hin. set_unfold in Hin.
  destruct Hin as [->|[->|[]]]; [|done].
  vm_compute. set_unfold. intros H; repeat destruct H as [H|H]; done.
Qed.

(** X7. The locator looks at the year directory and at the candidates of
    the slug and at nothing else: on two image trees that agree on these
    it answers the same. *)
Theorem find_image_for_local (fs fs' : Path → bool) (year : Z)
    (base_slug : str) :
  slash ∉ base_slug →
  fs (year_dir year) = fs' (year_dir year) →
  (∀ fname, fname ∈ candidates base_slug →
            fs (candidate_path year fname) = fs' (candidate_path year fname)) →
  find_image_for fs year base_slug = find_image_for fs' year base_slug.
Proof.
  intros Hb Hy Hc. rewrite !find_image_for_candidates by done.
  rewrite Hy. destruct (fs' (year_dir year)); [|done].
  apply first_hit_ext. intros fname Hin. by rewrite Hc.
Qed.

(** ** More on the record filler *)

Section FillerMore.

Context {py : Interpreter}.


Lemma stripped_name_by_name (o1 o2 : dict) :
  py_get game_name o1 = py_get game_name o2 →
  stripped_name o1 = stripped_name o2.
Proof. unfold stripped_name. by intros ->. Qed.

(** X9. The icon depends on the name alone: two game objects with the
    same [game_name] get the same [icon_url], whatever else they hold. *)
Theorem fill_game_icon_by_name (fs : Path → bool) (year : Z)
    (o1 o2 o1' : dict) :
  py_get game_name o1 = py_get game_name o2 →
  fill_game_icon fs year o1 = Ok o1' →
  ∃ v, o1' = <[icon_url := JStr v]> o1
       ∧ fill_game_icon fs year o2 = Ok (<[icon_url := JStr v]> o2).
Proof.
  intros Hn%stripped_name_by_name. unfold fill_game_icon. rewrite <- Hn.
  destruct (stripped_name o1) as [nm|]; [|done]. simpl.
  destruct (negb _); intros [= <-]; by eexists.
Qed.

Lemma fill_game_icon_again (fs : Path → bool) (year : Z) (o o' : dict) :
  fill_game_icon fs year o = Ok o' → fill_game_icon fs year o' = Ok o'.
Proof.
  unfold fill_game_icon.
  destruct (stripped_name o) as [nm|] eqn:En; [|done]. simpl. intros H.
  assert (∃ v, o' = <[icon_url := v]> o) as [v ->]
    by (destruct (negb _); injection H as <-; by eexists).
  rewrite stripped_name_insert_icon, En. simpl.
  destruct (negb _); by rewrite insert_insert_eq.
Qed.

Lemma visit_unchanged (fs : Path → bool) (year : Z) (o o' : dict) :
  visit fs year o = Ok (o', false) → o' = o.
Proof.
  unfold visit. intros (o1 & Hfill & [= -> Hc])%bind_Ok.
  apply fill_game_icon_insert in Hfill as (v & -> & _).
  rewrite py_get_insert in Hc. unfold py_ne in Hc.
  apply negb_false_iff, py_eq_str in Hc. apply insert_id.
  unfold py_get in Hc. by destruct (o !! icon_url); simplify_eq/=.
Qed.

Lemma visit_again (fs : Path → bool) (year : Z) (o o' : dict) :
  fill_game_icon fs year o = Ok o' → visit fs year o' = Ok (o', false).
Proof.
  intros H. unfold visit. rewrite (fill_game_icon_again _ _ _ _ H). simpl.
  apply fill_game_icon_insert in H as (v & -> & _).
  rewrite py_get_insert. unfold py_ne.
  by rewrite (proj2 (py_eq_str v (JStr v))).
Qed.

End FillerMore.

(** ** More on the batch driver *)

Lemma py_get_Some (k : str) (d : dict) (x : json) :
  py_get k d = x → x ≠ JNull → d !! k = Some x.
Proof. unfold py_get. destruct (d !! k); simpl; congruence. Qed.

Lemma dom_insert_present {A} (k : str) (v : A) (d : gmap str A) :
  is_Some (d !! k) → dom (<[k := v]> d) = dom d.
Proof.
  intros Hk%elem_of_dom. rewrite dom_insert_L.
  apply set_eq. intros x. rewrite elem_of_union, elem_of_singleton.
  split; [by intros [->|?]|by right].
Qed.

Lemma some_icon_changed_refl (l : list dict) : ¬ some_icon_changed l l.
Proof.
  unfold some_icon_changed. induction l as [|o l IH]; simpl.
  - by intros ?%Exists_nil.
  - intros [Ho|Hl]%Exists_cons; [by apply Ho|by apply IH].
Qed.

Section DriverMore.

Context {py : Interpreter}.

Lemma fill_award_steps (fs : Path → bool) (year : Z) (a : json) :
  fill_award fs year a
  = award ← as_dict a;
    '(award1, c1) ← fill_winner fs year award;
    '(award2, c2) ← fill_award_nominees fs year award1;
    Ok (JObj award2, c1 || c2).
Proof.
  unfold fill_award, fill_winner, fill_award_nominees.
  destruct (as_dict a) as [award|]; [|done]. simpl.
  destruct (match py_get (u "winner") award with JObj _ => _ | _ => _ end)
    as [[award1 c1]|]; [|done]. simpl.
  destruct (py_or _ _); simpl; rewrite ?orb_false_r; try done.
  by destruct (fill_nominees fs year l) as [[noms' c2]|].
Qed.

(** *** Lengths *)

Lemma fill_nominees_length (fs : Path → bool) (year : Z) noms noms' c :
  fill_nominees fs year noms = Ok (noms', c) → length noms' = length noms.
Proof.
  revert noms' c. induction noms as [|nom rest IH]; intros noms' c; simpl.
  { by intros [= <- _]. }
  intros ([nom' c0] & _ & ([rest' c'] & Hrest & [= <- _])%bind_Ok)%bind_Ok.
  simpl. f_equal. by eapply IH.
Qed.

Lemma fill_awards_length (fs : Path → bool) (year : Z) l l' c :
  fill_awards fs year l = Ok (l', c) → length l' = length l.
Proof.
  revert l' c. induction l as [|a rest IH]; intros l' c; simpl.
  { by intros [= <- _]. }
  intros ([a' c0] & _ & ([rest' c'] & Hrest & [= <- _])%bind_Ok)%bind_Ok.
  simpl. f_equal. by eapply IH.
Qed.

(** *** A flag that stays down means nothing was touched *)

Lemma fill_nominees_unchanged (fs : Path → bool) (year : Z) noms noms' :
  fill_nominees fs year noms = Ok (noms', false) → noms' = noms.
Proof.
  revert noms'. induction noms as [|nom rest IH]; intros noms'; simpl.
  { by intros [= <-]. }
  intros ([nom' c0] & Hnom
          & ([rest' c'] & Hrest & [= <- [-> ->]%orb_false_elim])%bind_Ok)%bind_Ok.
  f_equal; [|by apply IH].
  destruct nom as [| | | | | |o]; try by injection Hnom as <-.
  apply bind_Ok in Hnom as ([o' c1] & Hv & [= <- ->]).
  by apply visit_unchanged in Hv as ->.
Qed.

Lemma fill_winner_unchanged (fs : Path → bool) (year : Z) (award award1 : dict) :
  fill_winner fs year award = Ok (award1, false) → award1 = award.
Proof.
  unfold fill_winner.
  destruct (py_get (u "winner") award) as [| | | | | |w] eqn:E;
    try by intros [= <-].
  intros ([w' c] & Hv & [= <- ->])%bind_Ok.
  apply visit_unchanged in Hv as ->. apply insert_id.
  by apply py_get_Some.
Qed.

Lemma fill_award_nominees_unchanged (fs : Path → bool) (year : Z)
    (award award2 : dict) :
  fill_award_nominees fs year award = Ok (award2, false) → award2 = award.
Proof.
  unfold fill_award_nominees, py_or. simpl.
  destruct (truthy (py_get (u "nominees") award)) eqn:Et.
  - destruct (py_get (u "nominees") award) as [| | | | |noms|] eqn:E;
      try by intros [= <-].
    intros ([noms' c] & Hn & [= <- ->])%bind_Ok.
    apply fill_nominees_unchanged in Hn as ->. apply insert_id.
    by apply py_get_Some.
  - simpl. by intros [= <-].
Qed.

Lemma fill_award_unchanged (fs : Path → bool) (year : Z) a a' :
  fill_award fs year a = Ok (a', false) → a' = a.
Proof.
  rewrite fill_award_steps.
  intros (award & Ha & ([award1 c1] & Hw
          & ([award2 c2] & Hn & [= <- [-> ->]%orb_false_elim])%bind_Ok)%bind_Ok)%bind_Ok.
  destruct a; try done. injection Ha as ->.
  apply fill_winner_unchanged in Hw as ->.
  by apply fill_award_nominees_unchanged in Hn as ->.
Qed.

Lemma fill_awards_unchanged (fs : Path → bool) (year : Z) l l' :
  fill_awards fs year l = Ok (l', false) → l' = l.
Proof.
  revert l'. induction l as [|a rest IH]; intros l'; simpl.
  { by intros [= <-]. }
  intros ([a' c0] & Ha
          & ([rest' c'] & Hrest & [= <- [-> ->]%orb_false_elim])%bind_Ok)%bind_Ok.
  f_equal; [by apply fill_award_unchanged in Ha|by apply IH].
Qed.

Lemma fill_file_unchanged (fs : Path → bool) (data data' : json) :
  fill_file fs (Ok data) = Ok (data', false) → data' = data.
Proof.
  unfold fill_file. simpl.
  intros (d & Hd & (year & Hy & (awards & Hit
    & ([awards' c] & Hfa & [= <- ->])%bind_Ok)%bind_Ok)%bind_Ok)%bind_Ok.
  destruct (d !! u "awards") as [[| | | | |l|]|] eqn:Ed; try done.
  simpl in Hit. injection Hit as <-.
  apply fill_awards_unchanged in Hfa as ->.
  destruct data; try done. injection Hd as ->.
  by rewrite insert_id.
Qed.

(** X10. The changed flag of a file is down exactly when the document in
    memory is the document that was read: a skipped write loses nothing,
    and a write always stores something new. *)
Theorem unchanged_iff_same_document (fs : Path → bool) (data data' : json)
    (changed : bool) :
  fill_file fs (Ok data) = Ok (data', changed) →
  changed = false ↔ data' = data.
Proof.
  intros Hf. split.
  - intros ->. by apply (fill_file_unchanged fs).
  - intros ->.
    apply fill_file_visited in Hf as (_ & _ & _ & _ & _ & Hc).
    destruct changed; [|done].
    by destruct (some_icon_changed_refl (visited data)); apply Hc.
Qed.

(** *** A second pass changes nothing *)

Lemma fill_nominees_again (fs : Path → bool) (year : Z) noms noms' c :
  fill_nominees fs year noms = Ok (noms', c) →
  fill_nominees fs year noms' = Ok (noms', false).
Proof.
  revert noms' c. induction noms as [|nom rest IH]; intros noms' c; simpl.
  { by intros [= <- _]. }
  intros ([nom' c0] & Hnom & ([rest' c'] & Hrest & [= <- _])%bind_Ok)%bind_Ok.
  simpl. rewrite (IH _ _ Hrest).
  destruct nom as [| | | | | |o]; try by injection Hnom as <- _.
  apply bind_Ok in Hnom as ([o' c1] & [Hfill _]%visit_spec & [= <- _]).
  by rewrite (visit_again _ _ _ _ Hfill).
Qed.

Lemma fill_winner_settled (fs : Path → bool) (year : Z) (award : dict) :
  (∀ w, py_get (u "winner") award = JObj w →
        visit fs year w = Ok (w, false)) →
  fill_winner fs year award = Ok (award, false).
Proof.
  unfold fill_winner. intros Hw.
  destruct (py_get (u "winner") award) as [| | | | | |w] eqn:E; try done.
  rewrite (Hw w eq_refl). simpl. rewrite insert_id; [done|].
  by apply py_get_Some.
Qed.

Lemma fill_winner_result (fs : Path → bool) (year : Z)
    (award award1 : dict) c :
  fill_winner fs year award = Ok (award1, c) →
  (∀ w, py_get (u "winner") award1 = JObj w →
        visit fs year w = Ok (w, false))
  ∧ (∀ k, k ≠ u "winner" → award1 !! k = award !! k)
  ∧ dom award1 = dom award.
Proof.
  unfold fill_winner.
  destruct (py_get (u "winner") award) as [| | | | | |w] eqn:E;
    try (intros [= <- _]; split_and!; [|done|done]; intros w; by rewrite E).
  intros ([w' c0] & [Hfill _]%visit_spec & [= <- _])%bind_Ok. split_and!.
  - intros w0. rewrite py_get_insert. intros [= <-]. by eapply visit_again.
  - intros k Hk. by rewrite lookup_insert_ne.
  - apply dom_insert_present. apply py_get_Some in E; [|done]. by rewrite E.
Qed.

Lemma fill_award_nominees_settled (fs : Path → bool) (year : Z)
    (award : dict) :
  (∀ noms, py_get (u "nominees") award = JArr noms →
           fill_nominees fs year noms = Ok (noms, false)) →
  fill_award_nominees fs year award = Ok (award, false).
Proof.
  unfold fill_award_nominees, py_or. simpl. intros Hn.
  destruct (truthy (py_get (u "nominees") award)) eqn:Et; [|done].
  destruct (py_get (u "nominees") award) as [| | | | |noms|] eqn:E; try done.
  rewrite (Hn noms eq_refl). simpl. rewrite insert_id; [done|].
  by apply py_get_Some.
Qed.

Lemma fill_award_nominees_result (fs : Path → bool) (year : Z)
    (award award2 : dict) c :
  fill_award_nominees fs year award = Ok (award2, c) →
  (∀ noms, py_get (u "nominees") award2 = JArr noms →
           fill_nominees fs year noms = Ok (noms, false))
  ∧ (∀ k, k ≠ u "nominees" → award2 !! k = award !! k)
  ∧ dom award2 = dom award.
Proof.
  unfold fill_award_nominees, py_or. simpl.
  assert (Hfalse : truthy (py_get (u "nominees") award) = false →
    ∀ noms, py_get (u "nominees") award = JArr noms →
            fill_nominees fs year noms = Ok (noms, false)).
  { intros Et noms E. rewrite E in Et. by destruct noms. }
  destruct (truthy (py_get (u "nominees") award)) eqn:Et.
  - destruct (py_get (u "nominees") award) as [| | | | |noms|] eqn:E;
      try (intros [= <- _]; split_and!; [|done|done];
           intros noms0; by rewrite E).
    intros ([noms' c0] & Hn & [= <- _])%bind_Ok. split_and!.
    + intros noms0. rewrite py_get_insert. intros [= <-].
      by eapply fill_nominees_again.
    + intros k Hk. by rewrite lookup_insert_ne.
    + apply dom_insert_present. apply py_get_Some in E; [|done].
      by rewrite E.
  - simpl. intros [= <- _]. split_and!; [by apply Hfalse|done|done].
Qed.

Lemma fill_award_again (fs : Path → bool) (year : Z) a a' c :
  fill_award fs year a = Ok (a', c) →
  fill_award fs year a' = Ok (a', false).
Proof.
  rewrite !fill_award_steps.
  intros (award & Ha & ([award1 c1] & Hw
          & ([award2 c2] & Hn & [= <- _])%bind_Ok)%bind_Ok)%bind_Ok.
  apply fill_winner_result in Hw as (Hw & _ & _).
  apply fill_award_nominees_result in Hn as (Hn & Hk & _).
  simpl. rewrite fill_winner_settled.
  - simpl. by rewrite fill_award_nominees_settled.
  - intros w Ew. apply Hw. unfold py_get in *. by rewrite <- Hk.
Qed.

Lemma fill_awards_again (fs : Path → bool) (year : Z) l l' c :
  fill_awards fs year l = Ok (l', c) →
  fill_awards fs year l' = Ok (l', false).
Proof.
  revert l' c. induction l as [|a rest IH]; intros l' c; simpl.
  { by intros [= <- _]. }
  intros ([a' c0] & Ha & ([rest' c'] & Hrest & [= <- _])%bind_Ok)%bind_Ok.
  simpl. by rewrite (fill_award_again _ _ _ _ _ Ha), (IH _ _ Hrest).
Qed.

Lemma fill_file_again (fs : Path → bool) (data data' : json)
    (changed : bool) :
  fill_file fs (Ok data) = Ok (data', changed) →
  fill_file fs (Ok data') = Ok (data', false).
Proof.
  intros Hf. pose proof Hf as Hf0. revert Hf. unfold fill_file. simpl.
  intros (d & Hd & (year & Hy & (awards & Hit
    & ([awards' c] & Hfa & [= <- <-])%bind_Ok)%bind_Ok)%bind_Ok)%bind_Ok.
  destruct data as [| | | | | |d0]; try done. injection Hd as ->.
  destruct (d !! u "awards") as [x|] eqn:Ed; simpl in Hit.
  - destruct x as [| | | | s|l|d1]; try done; injection Hit as <-.
    + assert (Hs : Forall (λ a, ∃ s0, a = JStr s0)
                     ((λ c0 : N, JStr [c0]) <$> s))
        by (apply Forall_fmap, Forall_true; intros c0; by eexists).
      destruct (fill_awards_strings fs year _ _ _ Hs Hfa) as [_ ->].
      exact Hf0.
    + simpl. rewrite py_get_insert_ne, Hy by done. simpl.
      rewrite lookup_insert_eq. simpl.
      rewrite (fill_awards_again _ _ _ _ _ Hfa). simpl.
      by rewrite insert_insert_eq.
    + assert (Hs : Forall (λ a, ∃ s0, a = JStr s0)
                     ((λ kv : str * json, JStr kv.1) <$> map_to_list d1))
        by (apply Forall_fmap, Forall_true; intros c0; by eexists).
      destruct (fill_awards_strings fs year _ _ _ Hs Hfa) as [_ ->].
      exact Hf0.
  - injection Hit as <-. injection Hfa as <- <-. exact Hf0.
Qed.

(** X11. Processing a document that was already processed changes
    nothing: the second pass returns the same document with the changed
    flag down, so a second run of the script skips the file. *)
Theorem fill_file_second_pass (fs : Path → bool) (data data' : json)
    (changed : bool) :
  fill_file fs (Ok data) = Ok (data', changed) →
  fill_file fs (Ok data') = Ok (data', false).
Proof. apply fill_file_again. Qed.

End DriverMore.

Section DriverFrame.

Context {py : Interpreter}.

(** X12. In an award the driver touches the winner and the nominees and
    nothing else: every other key keeps its value and no key is added or
    removed. *)
Theorem fill_award_frame (fs : Path → bool) (year : Z) (award : dict)
    (a' : json) (c : bool) :
  fill_award fs year (JObj award) = Ok (a', c) →
  ∃ award', a' = JObj award'
            ∧ (∀ k, k ≠ u "winner" → k ≠ u "nominees" →
                    award' !! k = award !! k)
            ∧ dom award' = dom award.
Proof.
  rewrite fill_award_steps. simpl.
  intros ([award1 c1] & Hw
          & ([award2 c2] & Hn & [= <- _])%bind_Ok)%bind_Ok.
  apply fill_winner_result in Hw as (_ & Hk1 & Hd1).
  apply fill_award_nominees_result in Hn as (_ & Hk2 & Hd2).
  exists award2. split_and!; [done| |congruence].
  intros k ? ?. by rewrite Hk2, Hk1.
Qed.

(** X13. In a document the driver touches the list of awards and nothing
    else: every other key (the year among them) keeps its value, no key is
    added or removed, and the list keeps its length.  A document whose
    awards are absent or are not a list comes out as it went in, with the
    changed flag down. *)
Theorem fill_file_frame (fs : Path → bool) (data data' : json)
    (changed : bool) :
  fill_file fs (Ok data) = Ok (data', changed) →
  ∃ d d', data = JObj d ∧ data' = JObj d'
          ∧ (∀ k, k ≠ u "awards" → d' !! k = d !! k)
          ∧ dom d' = dom d
          ∧ (∀ l, d !! u "awards" = Some (JArr l) →
                  ∃ l', d' !! u "awards" = Some (JArr l')
                        ∧ length l' = length l)
          ∧ ((∀ l, d !! u "awards" ≠ Some (JArr l)) →
             d' = d ∧ changed = false).
Proof.
  unfold fill_file. simpl.
  intros (d & Hd & (year & Hy & (awards & Hit
    & ([awards' c] & Hfa & [= <- <-])%bind_Ok)%bind_Ok)%bind_Ok)%bind_Ok.
  destruct data as [| | | | | |d0]; try done. injection Hd as ->.
  exists d.
  assert (Hsame : (∀ l, d !! u "awards" ≠ Some (JArr l)) →
                  awards = [] ∧ c = false).
  { intros Hnl. destruct (d !! u "awards") as [[| | | | s|l|d1]|] eqn:Ed;
      try done; simpl in Hit; injection Hit as <-.
    - eapply fill_awards_strings; [|done].
      apply Forall_fmap, Forall_true. intros c0. by eexists.
    - by destruct (Hnl l).
    - eapply fill_awards_strings; [|done].
      apply Forall_fmap, Forall_true. intros c0. by eexists.
    - by injection Hfa as _ <-. }
  destruct (d !! u "awards") as [x|] eqn:Ed.
  - destruct x as [| | | | s|l|d1];
      try (exists d; split_and!; try done;
           intros Hnl; by destruct (Hsame Hnl) as [_ ->]).
    simpl in Hit. injection Hit as <-.
    exists (<[u "awards" := JArr awards']> d). split_and!; try done.
    + intros k Hk. by rewrite lookup_insert_ne.
    + apply dom_insert_present. by rewrite Ed.
    + intros l0 [= <-]. exists awards'. rewrite lookup_insert_eq.
      split; [done|]. by eapply fill_awards_length.
    + intros Hnl. by destruct (Hnl l).
  - exists d. split_and!; try done.
    intros Hnl. by destruct (Hsame Hnl) as [_ ->].
Qed.

Lemma fill_awards_app (fs : Path → bool) (year : Z) l1 l2 :
  fill_awards fs year (l1 ++ l2)
  = '(l1', c1) ← fill_awards fs year l1;
    '(l2', c2) ← fill_awards fs year l2;
    Ok (l1' ++ l2', c1 || c2).
Proof.
  induction l1 as [|a l1 IH]; simpl.
  { by destruct (fill_awards fs year l2) as [[l2' c2]|e]. }
  destruct (fill_award fs year a) as [[a' c]|e]; [|done].
  simpl. rewrite IH.
  destruct (fill_awards fs year l1) as [[l1' c1]|e]; [|done]. simpl.
  destruct (fill_awards fs year l2) as [[l2' c2]|e]; [|done]. simpl.
  by rewrite orb_assoc.
Qed.

(** X14. An award that is not a dict is not passed over the way a winner
    or a nominee is: when the awards before it are processed, the loop
    raises [AttributeError] at it, whatever follows. *)
Theorem non_dict_award_raises (fs : Path → bool) (year : Z)
    (pre post : list json) (a : json) (r : list json * bool) :
  (∀ award, a ≠ JObj award) →
  fill_awards fs year pre = Ok r →
  fill_awards fs year (pre ++ a :: post) = Raise AttributeError.
Proof.
  intros Ha Hpre. rewrite fill_awards_app, Hpre. destruct r as [pre' c].
  simpl. unfold fill_award.
  destruct a as [| | | | | |award]; try done. by destruct (Ha award).
Qed.

End DriverFrame.

(** ** More on the run *)



Section Run2.

Context {py : Interpreter}.

#[local] Arguments fill_file : simpl never.

Lemma main_loop_dom (fs : Path → bool) files n w :
  dom (disk (main_loop fs files n w).1) = dom (disk w).
Proof.
  revert n w. induction files as [|f rest IH]; intros n w; [done|]. simpl.
  destruct (disk w !! f) as [r|] eqn:Ef; simpl.
  - destruct (fill_file fs r) as [[data [|]]|e]; [..|done];
      rewrite IH; simpl; [|done].
    apply dom_insert_present. by rewrite Ef.
  - by destruct (fill_file fs (Raise OSError)) as [[data [|]]|e] eqn:E.
Qed.

(** X15. A run creates and deletes no file, and leaves every file that is
    not in its list as it was, whether it ends normally or with an
    exception. *)
Theorem main_touches_listed_files (fs : Path → bool)
    (files : option (list str)) (w : world) :
  dom (disk (main fs files w).1) = dom (disk w)
  ∧ ∀ fp, (∀ l, files = Some l → fp ∉ l) →
          disk (main fs files w).1 !! fp = disk w !! fp.
Proof.
  unfold main. destruct files as [[|f rest]|]; [by split|..|by split].
  pose proof (main_loop_dom fs (f :: rest) 0 w) as Hdom.
  assert (Hfr : ∀ fp, fp ∉ f :: rest →
            disk (main_loop fs (f :: rest) 0 w).1 !! fp = disk w !! fp)
    by (intros fp; apply main_loop_disk_frame).
  destruct (main_loop fs (f :: rest) 0 w) as [w' [n|e]]; simpl in *;
    (split; [done|]); intros fp Hfp; by apply Hfr, Hfp.
Qed.




(** A file is settled when its document is read and processed without a
    change. *)
Lemma settled_step (fs : Path → bool) (w : world) (f fp : str)
    (data : json) (c : bool) :
  fill_file fs (default (Raise OSError) (disk w !! f)) = Ok (data, c) →
  (∃ d0, disk w !! fp = Some (Ok d0)
         ∧ fill_file fs (Ok d0) = Ok (d0, false)) ∨ fp = f →
  ∃ d0, (if c then <[f := Ok data]> (disk w) else disk w) !! fp
        = Some (Ok d0)
        ∧ fill_file fs (Ok d0) = Ok (d0, false).
Proof.
  intros Hf Hs.
  assert (Hself : ∃ d1, disk w !! f = Some (Ok d1)
                        ∧ fill_file fs (Ok d1) = Ok (data, c)).
  { destruct (disk w !! f) as [[d1|e]|]; try done. by exists d1. }
  destruct Hself as (d1 & Hd1 & Hf1).
  destruct (decide (fp = f)) as [->|Hne].
  - destruct c.
    + exists data. rewrite lookup_insert_eq. split; [done|].
      by eapply fill_file_again.
    + exists d1. split; [done|].
      by pose proof (fill_file_unchanged _ _ _ Hf1) as ->.
  - destruct Hs as [(d0 & Hd0 & Hf0)|?]; [|done].
    exists d0. split; [|done]. destruct c; [|done].
    by rewrite lookup_insert_ne.
Qed.

Lemma main_loop_settles (fs : Path → bool) files n w w' n' :
  main_loop fs files n w = (w', Ok n') →
  ∀ fp, (∃ d0, disk w !! fp = Some (Ok d0)
               ∧ fill_file fs (Ok d0) = Ok (d0, false)) ∨ fp ∈ files →
        ∃ d0, disk w' !! fp = Some (Ok d0)
              ∧ fill_file fs (Ok d0) = Ok (d0, false).
Proof.
  revert n w. induction files as [|f rest IH]; intros n w; simpl.
  { intros [= <- _] fp [?|?%elem_of_nil]; done. }
  destruct (fill_file fs _) as [[data c]|e] eqn:Ef; [|done].
  intros Hrest fp Hfp.
  assert (Hstep : ∃ d0,
    (if c then <[f := Ok data]> (disk w) else disk w) !! fp = Some (Ok d0)
    ∧ fill_file fs (Ok d0) = Ok (d0, false) ∨ fp ∈ rest).
  { destruct Hfp as [Hs|[->|Hin]%elem_of_cons].
    - destruct (settled_step fs w f fp data c Ef (or_introl Hs)) as [d0 ?].
      exists d0. by left.
    - destruct (settled_step fs w f f data c Ef (or_intror eq_refl))
        as [d0 ?].
      exists d0. by left.
    - exists JNull. by right. }
  destruct Hstep as [d0 Hstep].
  destruct c; eapply IH; try exact Hrest; simpl;
    (destruct Hstep as [?|?]; [left; by exists d0|by right]).
Qed.

Lemma main_loop_settled (fs : Path → bool) files n w :
  (∀ fp, fp ∈ files →
         ∃ d0, disk w !! fp = Some (Ok d0)
               ∧ fill_file fs (Ok d0) = Ok (d0, false)) →
  main_loop fs files n w
  = (mkWorld (disk w) (stdout w ++ (LineSkip <$> files)), Ok n).
Proof.
  revert w. induction files as [|f rest IH]; intros w Hs; simpl.
  { rewrite app_nil_r. by destruct w. }
  destruct (Hs f) as (d0 & Hd & Hf); [by left|].
  rewrite Hd. simpl. rewrite Hf. rewrite IH.
  - simpl. by rewrite <- app_assoc.
  - intros fp Hin. simpl. apply Hs. by right.
Qed.

(** X18. Running the script again right after a run that ended normally
    writes nothing: every file is reported as skipped, the files stay as
    the first run left them and the count of updated files is zero. *)
Theorem second_run_skips (fs : Path → bool) (files : list str) (n : nat)
    (w w' : world) :
  main_loop fs files 0 w = (w', Ok n) →
  main_loop fs files 0 w'
  = (mkWorld (disk w') (stdout w' ++ (LineSkip <$> files)), Ok 0).
Proof.
  intros Hrun. apply main_loop_settled. intros fp Hin.
  eapply main_loop_settles; [done|]. by right.
Qed.

End Run2.

(** ** The further properties at work on the example *)

Lemma slugify_fixed_point_witness :
  u "hades_2" ≠ []
  ∧ Forall slug_char (u "hades_2")
  ∧ (∀ l1 l2, u "hades_2" ≠ l1 ++ underscore :: underscore :: l2)
  ∧ head (u "hades_2") ≠ Some underscore
  ∧ last (u "hades_2") ≠ Some underscore
  ∧ slugify (py := ascii_only) (Some (u "hades_2")) = u "hades_2".
Proof.
  assert (Hn : u "hades_2" ≠ []) by discriminate.
  assert (Hc : Forall slug_char (u "hades_2"))
    by (repeat constructor; first [by left | by right]).
  assert (Hp : ∀ l1 l2, u "hades_2" ≠ l1 ++ underscore :: underscore :: l2)
    by (apply single_us_no_pair; vm_compute; by repeat split).
  assert (Hh : head (u "hades_2") ≠ Some underscore) by discriminate.
  assert (Hl : last (u "hades_2") ≠ Some underscore) by discriminate.
  split; [exact Hn|]. split; [exact Hc|]. split; [exact Hp|].
  split; [exact Hh|]. split; [exact Hl|].
  exact (slugify_fixed_point (py := ascii_only) (u "hades_2") Hn Hc Hp Hh Hl).
Defined.

Lemma slugify_ascii_case_witness :
  Forall (λ c, (c < 128)%N) (u "HADES II")
  ∧ Forall (λ c, (c < 128)%N) (u "Hades ii")
  ∧ map ascii_lower (u "HADES II") = map ascii_lower (u "Hades ii")
  ∧ slugify (py := ascii_only) (Some (u "HADES II"))
    = slugify (py := ascii_only) (Some (u "Hades ii")).
Proof.
  assert (H1 : Forall (λ c, (c < 128)%N) (u "HADES II"))
    by (repeat constructor).
  assert (H2 : Forall (λ c, (c < 128)%N) (u "Hades ii"))
    by (repeat constructor).
  assert (E : map ascii_lower (u "HADES II") = map ascii_lower (u "Hades ii"))
    by (vm_compute; reflexivity).
  split; [exact H1|]. split; [exact H2|]. split; [exact E|].
  exact (slugify_ascii_case (py := ascii_only) _ _ H1 H2 E).
Defined.


Lemma find_image_for_shape_witness :
  find_image_for demo_nested_fs 2023 (u "a/b") = Some (u "img/2023/b.jpg")
  ∧ ∃ n, u "img/2023/b.jpg" = web_path 2023 n ∧ slash ∉ n.
Proof.
  assert (Hf : find_image_for demo_nested_fs 2023 (u "a/b")
               = Some (u "img/2023/b.jpg")) by (vm_compute; reflexivity).
  split; [exact Hf|].
  exact (find_image_for_shape demo_nested_fs 2023 (u "a/b") _ Hf).
Defined.

Lemma find_image_for_local_witness :
  (slash ∉ u "hades")
  ∧ demo_fs (year_dir 2023) = demo_fs_more (year_dir 2023)
  ∧ (∀ fname, fname ∈ candidates (u "hades") →
              demo_fs (candidate_path 2023 fname)
              = demo_fs_more (candidate_path 2023 fname))
  ∧ find_image_for demo_fs 2023 (u "hades")
    = find_image_for demo_fs_more 2023 (u "hades").
Proof.
  assert (Hs : slash ∉ u "hades")
    by (apply (bool_decide_unpack _); vm_compute; exact I).
  assert (Hy : demo_fs (year_dir 2023) = demo_fs_more (year_dir 2023))
    by (vm_compute; reflexivity).
  assert (Hc : ∀ fname, fname ∈ candidates (u "hades") →
                 demo_fs (candidate_path 2023 fname)
                 = demo_fs_more (candidate_path 2023 fname)).
  { apply Forall_forall.
    let l := eval vm_compute in (candidates (u "hades")) in
    change (candidates (u "hades")) with l.
    repeat (apply Forall_cons; split; [vm_compute; reflexivity|]).
    constructor. }
  split; [exact Hs|]. split; [exact Hy|]. split; [exact Hc|].
  exact (find_image_for_local demo_fs demo_fs_more 2023 (u "hades") Hs Hy Hc).
Defined.

Lemma fill_game_icon_by_name_witness :
  py_get game_name (game "Hades")
  = py_get game_name (<[u "app_id" := JInt 1145360]> (game "Hades"))
  ∧ fill_game_icon (py := ascii_only) demo_fs 2023 (game "Hades")
    = Ok (with_icon "img/2023/hades.webp" (game "Hades"))
  ∧ ∃ v, with_icon "img/2023/hades.webp" (game "Hades")
         = <[icon_url := JStr v]> (game "Hades")
         ∧ fill_game_icon (py := ascii_only) demo_fs 2023
             (<[u "app_id" := JInt 1145360]> (game "Hades"))
           = Ok (<[icon_url := JStr v]>
                   (<[u "app_id" := JInt 1145360]> (game "Hades"))).
Proof.
  assert (Hn : py_get game_name (game "Hades")
    = py_get game_name (<[u "app_id" := JInt 1145360]> (game "Hades")))
    by (vm_compute; reflexivity).
  assert (Hf : fill_game_icon (py := ascii_only) demo_fs 2023 (game "Hades")
               = Ok (with_icon "img/2023/hades.webp" (game "Hades")))
    by (vm_compute; reflexivity).
  split; [exact Hn|]. split; [exact Hf|].
  exact (fill_game_icon_by_name (py := ascii_only) demo_fs 2023 _ _ _ Hn Hf).
Defined.

Lemma unchanged_iff_same_document_witness :
  fill_file (py := ascii_only) demo_fs (Ok (JObj demo_dict))
  = Ok (JObj demo_dict_filled, true)
  ∧ JObj demo_dict_filled ≠ JObj demo_dict.
Proof.
  assert (Hf : fill_file (py := ascii_only) demo_fs (Ok (JObj demo_dict))
               = Ok (JObj demo_dict_filled, true))
    by (vm_compute; reflexivity).
  split; [exact Hf|]. intros E.
  pose proof (proj2 (unchanged_iff_same_document (py := ascii_only)
                       demo_fs _ _ _ Hf) E).
  discriminate.
Defined.

Lemma fill_file_second_pass_witness :
  fill_file (py := ascii_only) demo_fs (Ok (JObj demo_dict))
  = Ok (JObj demo_dict_filled, true)
  ∧ fill_file (py := ascii_only) demo_fs (Ok (JObj demo_dict_filled))
    = Ok (JObj demo_dict_filled, false).
Proof.
  assert (Hf : fill_file (py := ascii_only) demo_fs (Ok (JObj demo_dict))
               = Ok (JObj demo_dict_filled, true))
    by (vm_compute; reflexivity).
  split; [exact Hf|].
  exact (fill_file_second_pass (py := ascii_only) demo_fs _ _ _ Hf).
Defined.

Lemma fill_award_frame_witness :
  fill_award (py := ascii_only) demo_fs 2023
    (JObj (<[u "category" := JStr (u "Game of the Year")]> demo_award))
  = Ok (JObj (<[u "category" := JStr (u "Game of the Year")]>
                demo_award_filled), true)
  ∧ ∃ award',
      JObj (<[u "category" := JStr (u "Game of the Year")]>
              demo_award_filled) = JObj award'
      ∧ (∀ k, k ≠ u "winner" → k ≠ u "nominees" →
              award' !! k
              = (<[u "category" := JStr (u "Game of the Year")]> demo_award)
                  !! k)
      ∧ dom award'
        = dom (<[u "category" := JStr (u "Game of the Year")]> demo_award).
Proof.
  assert (Hf : fill_award (py := ascii_only) demo_fs 2023
    (JObj (<[u "category" := JStr (u "Game of the Year")]> demo_award))
    = Ok (JObj (<[u "category" := JStr (u "Game of the Year")]>
                  demo_award_filled), true)) by (vm_compute; reflexivity).
  split; [exact Hf|].
  exact (fill_award_frame (py := ascii_only) demo_fs 2023 _ _ _ Hf).
Defined.

Lemma fill_file_frame_witness :
  fill_file (py := ascii_only) demo_fs (Ok (JObj demo_dict))
  = Ok (JObj demo_dict_filled, true)
  ∧ ∃ d d', JObj demo_dict = JObj d ∧ JObj demo_dict_filled = JObj d'
            ∧ (∀ k, k ≠ u "awards" → d' !! k = d !! k)
            ∧ dom d' = dom d
            ∧ (∀ l, d !! u "awards" = Some (JArr l) →
                    ∃ l', d' !! u "awards" = Some (JArr l')
                          ∧ length l' = length l)
            ∧ ((∀ l, d !! u "awards" ≠ Some (JArr l)) →
               d' = d ∧ true = false).
Proof.
  assert (Hf : fill_file (py := ascii_only) demo_fs (Ok (JObj demo_dict))
               = Ok (JObj demo_dict_filled, true))
    by (vm_compute; reflexivity).
  split; [exact Hf|].
  exact (fill_file_frame (py := ascii_only) demo_fs _ _ _ Hf).
Defined.

Lemma non_dict_award_raises_witness :
  (∀ award, JNull ≠ JObj award)
  ∧ fill_awards (py := ascii_only) demo_fs 2023 [JObj demo_award]
    = Ok ([JObj demo_award_filled], true)
  ∧ fill_awards (py := ascii_only) demo_fs 2023
      ([JObj demo_award] ++ JNull :: [JObj demo_award])
    = Raise AttributeError.
Proof.
  assert (Ha : ∀ award, JNull ≠ JObj award) by (intros award; discriminate).
  assert (Hpre : fill_awards (py := ascii_only) demo_fs 2023 [JObj demo_award]
                 = Ok ([JObj demo_award_filled], true))
    by (vm_compute; reflexivity).
  split; [exact Ha|]. split; [exact Hpre|].
  exact (non_dict_award_raises (py := ascii_only) demo_fs 2023 _
           [JObj demo_award] JNull _ Ha Hpre).
Defined.



Lemma second_run_skips_witness :
  main_loop (py := ascii_only) demo_fs [u "steam_awards_2023.json"] 0
    demo_world
  = (demo_world_after, Ok 1)
  ∧ main_loop (py := ascii_only) demo_fs [u "steam_awards_2023.json"] 0
      demo_world_after
    = (mkWorld (disk demo_world_after)
         (stdout demo_world_after
          ++ (LineSkip <$> [u "steam_awards_2023.json"])), Ok 0).
Proof.
  assert (Hm : main_loop (py := ascii_only) demo_fs
                 [u "steam_awards_2023.json"] 0 demo_world
               = (demo_world_after, Ok 1)) by (vm_compute; reflexivity).
  split; [exact Hm|].
  exact (second_run_skips (py := ascii_only) demo_fs _ _ _ _ Hm).
Defined.

Lemma main_touches_listed_files_witness :
  dom (disk (main (py := ascii_only) demo_fs
               (Some [u "steam_awards_2023.json"]) demo_world).1)
  = dom (disk demo_world)
  ∧ disk (main (py := ascii_only) demo_fs
            (Some [u "steam_awards_2023.json"]) demo_world).1
      !! u "steam_awards_draft.json"
    = Some (Ok (JObj {[ u "awards" := JArr [] ]})).
Proof.
  destruct (main_touches_listed_files (py := ascii_only) demo_fs
              (Some [u "steam_awards_2023.json"]) demo_world) as [Hd Hk].
  split; [exact Hd|].
  rewrite (Hk (u "steam_awards_draft.json")).
  - vm_compute. reflexivity.
  - intros l [= <-]. apply (bool_decide_unpack _). vm_compute. exact I.
Defined.
